(** * pkg/command: launching executables and shell scripts

    A shallow embedding of [pkg/command/command.go] and the properties of
    it that the specification states.

    The Go code talks to the operating system (process creation, pipes,
    the process environment, the logger).  Those effects are threaded
    through a state monad over a [World]: the world holds what the
    platform hands back to the program and the ordered list of
    platform-level events the program has caused so far. *)

From Stdlib Require Import String Ascii List Bool ZArith Lia.
From Stdlib Require Import Numbers.DecimalString.
From ExtLib Require Import Structures.Monad Structures.MonadState.
From ExtLib Require Import Data.Monads.StateMonad.
Import ListNotations.
Import MonadNotation.
Local Open Scope string_scope.
Local Open Scope list_scope.
Local Open Scope monad_scope.

(* ================================================================== *)
(** ** Go standard library and pkg/errors, as far as command.go uses them *)
(* ================================================================== *)

(** Package [strings]. *)
Module strings.

(** [strings.Contains(s, substr)]: a byte-wise, hence case-sensitive,
    substring test. *)
Fixpoint Contains (s substr : string) : bool :=
  if String.prefix substr s then true
  else match s with
       | EmptyString => false
       | String _ rest => Contains rest substr
       end.

(** [strings.Join(elems, sep)]. *)
Definition Join (elems : list string) (sep : string) : string :=
  String.concat sep elems.

(** [strings.Cut(s, "=")]: the text before and after the first [=]. *)
Fixpoint CutEq (s : string) : option (string * string) :=
  match s with
  | EmptyString => None
  | String c rest =>
      if Ascii.eqb c "="%char then Some (EmptyString, rest)
      else match CutEq rest with
           | Some (k, v) => Some (String c k, v)
           | None => None
           end
  end.

End strings.

(** Go [error] values.  [withMessage] is what [errors.Wrap] and
    [errors.Wrapf] of github.com/pkg/errors build; [errorString] is what
    [fmt.Errorf] builds from a format without [%w]; [osError] and
    [ExitError] are the values the platform hands back. *)
Inductive error : Type :=
| osError (msg : string)
| ExitError (status : Z)
| errorString (msg : string)
| withMessage (cause : error) (msg : string).

(** The method [Error() string]. *)
Fixpoint Error (e : error) : string :=
  match e with
  | osError msg => msg
  | ExitError status =>
      "exit status " ++ NilEmpty.string_of_int (Z.to_int status)
  | errorString msg => msg
  | withMessage cause msg => msg ++ ": " ++ Error cause
  end.

(** Package github.com/pkg/errors. *)
Module errors.

(** [errors.Wrap(err, message)] and [errors.Wrapf(err, format, ...)]
    with the message already formatted.  Every call in command.go is
    guarded by [err != nil], so [err] is a proper error here. *)
Definition Wrap (err : error) (message : string) : error :=
  withMessage err message.

Definition Wrapf (err : error) (message : string) : error :=
  withMessage err message.

(** [errors.Cause(err)]: follow [Cause()] as long as the error has one. *)
Fixpoint Cause (e : error) : error :=
  match e with
  | withMessage cause _ => Cause cause
  | _ => e
  end.

(** Every error reachable from [e] by unwrapping, [e] first. *)
Fixpoint chain (e : error) : list error :=
  match e with
  | withMessage cause _ => e :: chain cause
  | _ => [e]
  end.

End errors.

(** Package [fmt]. *)
Module fmt.

(** The verb [%v] applied to an [error] interface value. *)
Definition v (err : option error) : string :=
  match err with
  | None => "<nil>"
  | Some e => Error e
  end.

(** [fmt.Errorf(format, ...)] with the text already formatted. *)
Definition Errorf (text : string) : option error :=
  Some (errorString text).

End fmt.

(** Package [io]: a writer is known by its identity. *)
Module io.
Inductive Writer : Type :=
| File (fd : nat)
| Buffer (addr : nat).
End io.

(** The two output streams of a child process; a pipe obtained from a
    command is known by the stream it reads. *)
Inductive Stream : Type := StdoutStream | StderrStream.

(** [exec.Cmd]: the fields that command.go touches.  [Env = None] is the
    nil slice. *)
Record Cmd : Type := mkCmd {
  Path : string;
  Args : list string;
  Env : option (list string);
  Dir : string;
  Stdin : option string
}.

(** ** The platform *)

(** What the platform does with one command: the error, if any, of each
    call the program makes on it. *)
Record Behaviour : Type := mkBehaviour {
  stdoutPipeErr : option error;   (* cmd.StdoutPipe() *)
  stderrPipeErr : option error;   (* cmd.StderrPipe() *)
  startErr : option error;        (* cmd.Start() *)
  copyStdoutErr : option error;   (* io.Copy from the stdout pipe *)
  copyStderrErr : option error;   (* io.Copy from the stderr pipe *)
  waitErr : option error          (* cmd.Wait(): the exit error *)
}.

(** Platform-level events, in the order the program causes them. *)
Inductive Event : Type :=
| EvLog (line : string)
| EvStdoutPipe (cmd : Cmd) (ok : bool)
| EvStderrPipe (cmd : Cmd) (ok : bool)
| EvStart (cmd : Cmd) (ok : bool)
| EvGo (cmd : Cmd) (src : Stream) (dst : io.Writer)
| EvWait (cmd : Cmd).

Record World : Type := mkWorld {
  osEnviron : list string;        (* the environment of this process *)
  osStdout : io.Writer;           (* the current value of os.Stdout *)
  osStderr : io.Writer;           (* the current value of os.Stderr *)
  child : Cmd -> Behaviour;
  events : list Event
}.

Definition M : Type -> Type := state World.

(** The world once the events [evs] have happened in it. *)
Definition after (w : World) (evs : list Event) : World :=
  mkWorld (osEnviron w) (osStdout w) (osStderr w) (child w) (events w ++ evs).

Definition emit (e : Event) : M unit :=
  mkState (fun w => (tt, after w [e])).

Definition behaviour (cmd : Cmd) : M Behaviour :=
  w <- get ;; ret (child w cmd).

(** Package [os]. *)
Module os.
Definition Environ : M (list string) := w <- get ;; ret (osEnviron w).
Definition Stdout : M io.Writer := w <- get ;; ret (osStdout w).
Definition Stderr : M io.Writer := w <- get ;; ret (osStderr w).
End os.

(** Package [log]: [log.Entry().Infof] with the line already formatted. *)
Module log.
Definition Infof (line : string) : M unit := emit (EvLog line).
End log.

(** Package [os/exec]. *)
Module exec.

Definition setDir (cmd : Cmd) (d : string) : Cmd :=
  mkCmd (Path cmd) (Args cmd) (Env cmd) d (Stdin cmd).

Definition setEnv (cmd : Cmd) (e : option (list string)) : Cmd :=
  mkCmd (Path cmd) (Args cmd) e (Dir cmd) (Stdin cmd).

Definition setStdin (cmd : Cmd) (i : option string) : Cmd :=
  mkCmd (Path cmd) (Args cmd) (Env cmd) (Dir cmd) i.

(** [exec.Command(name, arg...)]: the default launcher. *)
Definition Command (name : string) (arg : list string) : Cmd :=
  mkCmd name (name :: arg) None "" None.

(** [len(cmd.Env)]. *)
Definition lenEnv (cmd : Cmd) : nat :=
  match Env cmd with
  | None => 0
  | Some l => List.length l
  end.

(** The entries of [cmd.Env] as [append] sees them. *)
Definition envEntries (cmd : Cmd) : list string :=
  match Env cmd with
  | None => []
  | Some l => l
  end.

(** The environment the child gets: a nil [cmd.Env] means the
    environment of the current process (see the comment in
    [appendEnvironment]). *)
Definition effectiveEnv (w : World) (cmd : Cmd) : list string :=
  match Env cmd with
  | None => osEnviron w
  | Some l => l
  end.

(** The value the child sees for [key]: if the environment contains
    duplicate keys, only the last value in the slice is used. *)
Fixpoint lookupEnv (key : string) (env : list string) : option string :=
  match env with
  | [] => None
  | entry :: rest =>
      match lookupEnv key rest with
      | Some v => Some v
      | None =>
          match strings.CutEq entry with
          | Some (k, v) => if String.eqb k key then Some v else None
          | None => None
          end
      end
  end.

Definition StdoutPipe (cmd : Cmd) : M (error + Stream) :=
  b <- behaviour cmd ;;
  match stdoutPipeErr b with
  | Some e => emit (EvStdoutPipe cmd false) ;; ret (inl e)
  | None => emit (EvStdoutPipe cmd true) ;; ret (inr StdoutStream)
  end.

Definition StderrPipe (cmd : Cmd) : M (error + Stream) :=
  b <- behaviour cmd ;;
  match stderrPipeErr b with
  | Some e => emit (EvStderrPipe cmd false) ;; ret (inl e)
  | None => emit (EvStderrPipe cmd true) ;; ret (inr StderrStream)
  end.

Definition Start (cmd : Cmd) : M (option error) :=
  b <- behaviour cmd ;;
  match startErr b with
  | Some e => emit (EvStart cmd false) ;; ret (Some e)
  | None => emit (EvStart cmd true) ;; ret None
  end.

(** [cmd.Wait()]: the process has exited. *)
Definition Wait (cmd : Cmd) : M (option error) :=
  b <- behaviour cmd ;;
  emit (EvWait cmd) ;;
  ret (waitErr b).

End exec.

(** [io.Copy(dst, src)] on a pipe of [cmd], run to end of stream. *)
Definition io_Copy (cmd : Cmd) (dst : io.Writer) (src : Stream)
  : M (option error) :=
  b <- behaviour cmd ;;
  ret (match src with
       | StdoutStream => copyStdoutErr b
       | StderrStream => copyStderrErr b
       end).

(* ================================================================== *)
(** ** command.go *)
(* ================================================================== *)

(** [Command]: the information required for executing a call to any
    executable.  A nil writer is [None]; [env] is only measured and
    appended, so a nil slice is the empty list. *)
Record Command : Type := mkCommand {
  dir : string;
  stdout : option io.Writer;
  stderr : option io.Writer;
  env : list string
}.



Definition Stdout (c : Command) (w : option io.Writer) : Command :=
  mkCommand (dir c) w (stderr c) (env c).

Definition Stderr (c : Command) (w : option io.Writer) : Command :=
  mkCommand (dir c) (stdout c) w (env c).

(** One drain goroutine of [startCmd]: which error slot of the execution
    it assigns, and the [io.Copy] it runs. *)
Record Drain : Type := mkDrain {
  slot : Stream;
  dst : io.Writer;
  src : Stream
}.

(** [execution]: a started command.  [wg] holds the goroutines the wait
    group still counts. *)
Record execution : Type := mkExecution {
  cmd : Cmd;
  wg : list Drain;
  errCopyStdout : option error;
  errCopyStderr : option error
}.

(** [go func() { _, execution.err... = io.Copy(dst, src); wg.Done() }()]:
    the goroutine is started. *)
Definition spawn (e : execution) (d : Drain) : M execution :=
  emit (EvGo (cmd e) (src d) (dst d)) ;;
  ret (mkExecution (cmd e) (wg e ++ [d]) (errCopyStdout e) (errCopyStderr e)).

(** The body of such a goroutine, run to its end. *)
Definition finish (e : execution) (d : Drain) : M execution :=
  err <- io_Copy (cmd e) (dst d) (src d) ;;
  ret (match slot d with
       | StdoutStream => mkExecution (cmd e) (wg e) err (errCopyStderr e)
       | StderrStream => mkExecution (cmd e) (wg e) (errCopyStdout e) err
       end).

Fixpoint finishAll (ds : list Drain) (e : execution) : M execution :=
  match ds with
  | [] => ret e
  | d :: rest => e' <- finish e d ;; finishAll rest e'
  end.

(** Modelled from the spec: the join operation of the execution handle
    (the method [Wait] of [execution]; its declaration is not part of
    command.go).  The join waits for both drain tasks to finish and for
    the process to exit; afterwards the exit error and the copy errors
    recorded in the handle are available. *)
Definition Wait (e : execution) : M (execution * option error) :=
  e' <- finishAll (wg e) e ;;
  err <- exec.Wait (cmd e') ;;
  ret (mkExecution (cmd e') [] (errCopyStdout e') (errCopyStderr e'), err).

Definition appendEnvironment (cmd : Cmd) (env : list string) : M Cmd :=
  if Nat.ltb 0 (List.length env) then
    cmd <- (if Nat.eqb (exec.lenEnv cmd) 0
            then environ <- os.Environ ;;
                 ret (exec.setEnv cmd (Some environ))
            else ret cmd) ;;
    ret (exec.setEnv cmd (Some (exec.envEntries cmd ++ env)))
  else ret cmd.

Definition cmdPipes (cmd : Cmd) : M (error + Stream * Stream) :=
  r <- exec.StdoutPipe cmd ;;
  match r with
  | inl err => ret (inl (errors.Wrap err "getting Stdout pipe failed"))
  | inr stdout =>
      r <- exec.StderrPipe cmd ;;
      match r with
      | inl err => ret (inl (errors.Wrap err "getting Stderr pipe failed"))
      | inr stderr => ret (inr (stdout, stderr))
      end
  end.

(** [startCmd] returns [(nil, err)], here [inl err], or
    [(&execution, nil)], here [inr execution]. *)
Definition startCmd (cmd : Cmd) (_out _err : io.Writer)
  : M (error + execution) :=
  r <- cmdPipes cmd ;;
  match r with
  | inl err => ret (inl (errors.Wrap err "getting command pipes failed"))
  | inr (stdout, stderr) =>
      err <- exec.Start cmd ;;
      match err with
      | Some err => ret (inl (errors.Wrap err "starting command failed"))
      | None =>
          let execution := mkExecution cmd [] None None in
          execution <- spawn execution (mkDrain StdoutStream _out stdout) ;;
          execution <- spawn execution (mkDrain StderrStream _err stderr) ;;
          ret (inr execution)
      end
  end.

Definition isSome {A : Type} (o : option A) : bool :=
  match o with
  | Some _ => true
  | None => false
  end.

Definition runCmd (cmd : Cmd) (_out _err : io.Writer) : M (option error) :=
  r <- startCmd cmd _out _err ;;
  match r with
  | inl err => ret (Some err)
  | inr execution =>
      '(execution, err) <- Wait execution ;;
      if isSome (errCopyStdout execution) || isSome (errCopyStderr execution)
      then ret (fmt.Errorf ("failed to capture stdout/stderr: '"
                            ++ fmt.v (errCopyStdout execution) ++ "'/'"
                            ++ fmt.v (errCopyStderr execution) ++ "'"))
      else match err with
           | Some err => ret (Some (errors.Wrap err "cmd.Run() failed"))
           | None => ret None
           end
  end.

Definition prepareOut (stdout stderr : option io.Writer)
  : M (io.Writer * io.Writer) :=
  stdout <- match stdout with
            | None => os.Stdout
            | Some w => ret w
            end ;;
  stderr <- match stderr with
            | None => os.Stderr
            | Some w => ret w
            end ;;
  ret (stdout, stderr).

Section Dispatcher.

(** [var ExecCommand = exec.Command]: how to build the command object;
    tests put a launcher of their own here. *)
Variable ExecCommand : string -> list string -> Cmd.

(** [if len(c.dir) > 0 { cmd.Dir = c.dir }]. *)
Definition applyDir (c : Command) (cmd : Cmd) : Cmd :=
  if Nat.ltb 0 (String.length (dir c)) then exec.setDir cmd (dir c) else cmd.

Definition RunShell (c : Command) (shell script : string)
  : M (option error) :=
  '(_out, _err) <- prepareOut (stdout c) (stderr c) ;;
  let cmd := ExecCommand shell [] in
  let cmd := applyDir c cmd in
  cmd <- appendEnvironment cmd (env c) ;;
  let cmd := exec.setStdin cmd (Some script) in
  log.Infof ("running shell script: " ++ shell ++ " " ++ script) ;;
  err <- runCmd cmd _out _err ;;
  match err with
  | Some err =>
      ret (Some (errors.Wrapf err
                   ("running shell script failed with " ++ shell)))
  | None => ret None
  end.

Definition RunExecutable (c : Command) (executable : string)
                         (params : list string) : M (option error) :=
  '(_out, _err) <- prepareOut (stdout c) (stderr c) ;;
  let cmd := ExecCommand executable params in
  let cmd := applyDir c cmd in
  log.Infof ("running command: " ++ executable ++ " "
             ++ strings.Join params " ") ;;
  cmd <- appendEnvironment cmd (env c) ;;
  err <- runCmd cmd _out _err ;;
  match err with
  | Some err =>
      ret (Some (errors.Wrapf err
                   ("running command '" ++ executable ++ "' failed")))
  | None => ret None
  end.

(** Returns [(nil, err)], here [inl err], or [(execution, nil)], here
    [inr execution]. *)
Definition RunExecutableInBackground (c : Command) (executable : string)
                                     (params : list string)
  : M (error + execution) :=
  '(_out, _err) <- prepareOut (stdout c) (stderr c) ;;
  let cmd := ExecCommand executable params in
  let cmd := applyDir c cmd in
  log.Infof ("running command: " ++ executable ++ " "
             ++ strings.Join params " ") ;;
  cmd <- appendEnvironment cmd (env c) ;;
  r <- startCmd cmd _out _err ;;
  match r with
  | inl err =>
      ret (inl (errors.Wrapf err
                  ("starting command '" ++ executable ++ "' failed")))
  | inr execution => ret (inr execution)
  end.

End Dispatcher.

(** The launcher the tests of the package put into [ExecCommand]
    ([helperCommand] of the package's test file); [self] is
    [os.Args[0]]. *)
Definition helperCommand (self : string) (command : string) (s : list string)
  : Cmd :=
  let cs := ["-test.run=TestHelperProcess"; "--"; command] in
  let cs := cs ++ s in
  let cmd := exec.Command self cs in
  exec.setEnv cmd (Some ["GO_WANT_HELPER_PROCESS=1"]).

(* ================================================================== *)
(** ** The output classifier *)
(* ================================================================== *)

Module Classifier.

(** Modelled from the spec: the category enumeration of the logging
    package [pkg/log], which command.go only imports: Undefined plus
    named categories such as Configuration and Build; the enumeration
    is open, [ErrorLabelled] stands for its other members. *)
Inductive ErrorCategory : Type :=
| ErrorUndefined
| ErrorConfiguration
| ErrorBuild
| ErrorLabelled (label : string).

(** Modelled from the spec: the category a label of the mapping names;
    the tests of the package use the labels [config] and [build]. *)
Definition ErrorCategoryByString (label : string) : ErrorCategory :=
  if String.eqb label "config" then ErrorConfiguration
  else if String.eqb label "build" then ErrorBuild
  else ErrorLabelled label.

(** The classifier mapping, as one iteration over it visits it:
    category label and patterns, in iteration order. *)
Definition Mapping : Type := list (string * list string).

(** Does some pattern of one category occur in the line? *)
Definition matchesAny (line : string) (patterns : list string) : bool :=
  existsb (fun pattern => strings.Contains line pattern) patterns.

(** The first category, in iteration order, with a matching pattern. *)
Fixpoint firstMatch (mapping : Mapping) (line : string) : option string :=
  match mapping with
  | [] => None
  | (category, patterns) :: rest =>
      if matchesAny line patterns then Some category
      else firstMatch rest line
  end.

(** Modelled from the spec: the classifier step [parseConsoleErrors],
    which command.go does not contain (only the package's test calls it).
    For one observed line, each category's patterns are tested as
    substring matches in the mapping's iteration order; the first
    matching category updates the shared category signal, and without
    a match the signal keeps its value.  The signal is passed in and
    out explicitly. *)
Definition parseConsoleErrors (mapping : Mapping) (line : string)
                              (signal : ErrorCategory) : ErrorCategory :=
  match firstMatch mapping line with
  | Some category => ErrorCategoryByString category
  | None => signal
  end.

(** The lines of the drained streams, classified in the order in which
    they are observed. *)
Definition classify (mapping : Mapping) (lines : list string)
                    (signal : ErrorCategory) : ErrorCategory :=
  fold_left (fun s line => parseConsoleErrors mapping line s) lines signal.

End Classifier.

(* ================================================================== *)
(** ** Notions the statements below use *)
(* ================================================================== *)

(** [sub] occurs in [s]. *)
Definition occursIn (sub s : string) : Prop :=
  exists before behind : string, s = (before ++ sub ++ behind)%string.

(** No pattern of any category of [mapping] occurs in [line]. *)
Definition matchless (mapping : Classifier.Mapping) (line : string) : Prop :=
  forall category patterns pattern,
    In (category, patterns) mapping -> In pattern patterns ->
    ~ occursIn pattern line.

(** The process of [cmd] gets started in [w]: both pipes and the start
    succeed. *)
Definition starts (w : World) (cmd : Cmd) : Prop :=
  stdoutPipeErr (child w cmd) = None /\
  stderrPipeErr (child w cmd) = None /\
  startErr (child w cmd) = None.

(** The command object [RunExecutable] and [RunExecutableInBackground]
    hand to the platform. *)
Definition executableCmd (ExecCommand : string -> list string -> Cmd)
    (c : Command) (executable : string) (params : list string) (w : World)
  : Cmd :=
  fst (runState (appendEnvironment
                   (applyDir c (ExecCommand executable params)) (env c)) w).

(** The command object [RunShell] hands to the platform. *)
Definition shellCmd (ExecCommand : string -> list string -> Cmd)
    (c : Command) (shell script : string) (w : World) : Cmd :=
  exec.setStdin
    (fst (runState (appendEnvironment
                      (applyDir c (ExecCommand shell [])) (env c)) w))
    (Some script).

(** The sinks a run of [c] launched in [w] drains into. *)
Definition sinkOut (c : Command) (w : World) : io.Writer :=
  match stdout c with
  | None => osStdout w
  | Some x => x
  end.

Definition sinkErr (c : Command) (w : World) : io.Writer :=
  match stderr c with
  | None => osStderr w
  | Some x => x
  end.

(** The aggregated result of a joined execution: the exit error plus any
    copy errors.  This is the case analysis at the end of [runCmd], as a
    function of the joined handle and of the exit error: copy errors
    come first and are reported as one new error naming both streams. *)
Definition joinResult (e : execution) (exitErr : option error)
  : option error :=
  match errCopyStdout e, errCopyStderr e with
  | None, None =>
      match exitErr with
      | Some err => Some (errors.Wrap err "cmd.Run() failed")
      | None => None
      end
  | out, err =>
      fmt.Errorf ("failed to capture stdout/stderr: '"
                  ++ fmt.v out ++ "'/'" ++ fmt.v err ++ "'")
  end.

(** The composition the spec describes for a blocking run: start, then
    immediately join, then the aggregated result. *)
Definition startThenJoin (cmd : Cmd) (_out _err : io.Writer)
  : M (option error) :=
  r <- startCmd cmd _out _err ;;
  match r with
  | inl err => ret (Some err)
  | inr handle =>
      '(handle, exitErr) <- Wait handle ;;
      ret (joinResult handle exitErr)
  end.

(** Reading a trace: the events that precede the first start of a
    process, if a process is started at all. *)
Fixpoint beforeStart (evs : list Event) : option (list Event) :=
  match evs with
  | [] => None
  | EvStart _ _ :: _ => Some []
  | ev :: rest => option_map (cons ev) (beforeStart rest)
  end.

(** Reading a trace: no process start and no drain task in it. *)
Definition neverStarted (evs : list Event) : bool :=
  forallb (fun ev => match ev with
                     | EvStart _ _ | EvGo _ _ _ => false
                     | _ => true
                     end) evs.

(** Reading a trace: the drain tasks started, as (stream, sink). *)
Fixpoint drains (evs : list Event) : list (Stream * io.Writer) :=
  match evs with
  | [] => []
  | EvGo _ s d :: rest => (s, d) :: drains rest
  | _ :: rest => drains rest
  end.

(** Reading a trace: the command objects given to [cmd.Start()]. *)
Fixpoint launched (evs : list Event) : list Cmd :=
  match evs with
  | [] => []
  | EvStart cmd _ :: rest => cmd :: launched rest
  | _ :: rest => launched rest
  end.

(** The events of a launch: at most one process is started, the one of
    the command object; what precedes its start are the two successful
    pipe attachments; the drain tasks, if any, are the two that copy
    into the sinks given. *)
Definition launchTrace (cmd : Cmd) (o e : io.Writer) (w : World)
                       (evs : list Event) : Prop :=
  (forall pre, beforeStart evs = Some pre ->
     pre = [EvStdoutPipe cmd true; EvStderrPipe cmd true]) /\
  (launched evs = [] \/ launched evs = [cmd]) /\
  (drains evs = [] \/ drains evs = [(StdoutStream, o); (StderrStream, e)]) /\
  (starts w cmd ->
     launched evs = [cmd] /\
     drains evs = [(StdoutStream, o); (StderrStream, e)]).

(** Wrapping the error of a run, if there is one. *)
Definition wrapped (message : string) (err : option error) : option error :=
  option_map (fun e => errors.Wrapf e message) err.

(** ** Sample platforms *)

(** A child that runs to a clean exit. *)
Definition runsFine : Behaviour :=
  mkBehaviour None None None None None None.

(** A child that exits with the given status. *)
Definition exitsWith (status : Z) : Behaviour :=
  mkBehaviour None None None None None (Some (ExitError status)).

(** A child whose drains both fail and which exits with status 3. *)
Definition drainsFail : Behaviour :=
  mkBehaviour None None None
    (Some (osError "write: broken pipe")) (Some (osError "short write"))
    (Some (ExitError 3)).

(** An executable that cannot be started. *)
Definition notFound : Behaviour :=
  mkBehaviour None None
    (Some (osError "executable file not found in $PATH")) None None None.

(** A command whose stderr pipe cannot be obtained. *)
Definition noStderrPipe : Behaviour :=
  mkBehaviour None (Some (osError "too many open files")) None None None None.

(** A process with two inherited variables and the standard streams on
    file descriptors 1 and 2, in which every child behaves as [b]. *)
Definition sampleWorld (b : Behaviour) : World :=
  mkWorld ["PATH=/usr/bin"; "DEBUG=false"] (io.File 1) (io.File 2)
          (fun _ => b) [].

(* ================================================================== *)
(** ** Further notions: traces, environments, the helper process *)
(* ================================================================== *)

(** Reading a trace: the log lines written. *)
Fixpoint logged (evs : list Event) : list string :=
  match evs with
  | [] => []
  | EvLog line :: rest => line :: logged rest
  | _ :: rest => logged rest
  end.

(** Reading a trace: the processes waited for. *)
Fixpoint joined (evs : list Event) : list Cmd :=
  match evs with
  | [] => []
  | EvWait cmd :: rest => cmd :: joined rest
  | _ :: rest => joined rest
  end.

(** Reading a trace: the pipes asked for, with the outcome of each
    request. *)
Fixpoint pipesAsked (evs : list Event) : list (Stream * bool) :=
  match evs with
  | [] => []
  | EvStdoutPipe _ ok :: rest => (StdoutStream, ok) :: pipesAsked rest
  | EvStderrPipe _ ok :: rest => (StderrStream, ok) :: pipesAsked rest
  | _ :: rest => pipesAsked rest
  end.

(** The entries [appendEnvironment] appends a non-empty override list
    to: those of [cmd.Env], or the environment of the process if there
    are none. *)
Definition baseEnv (w : World) (cmd : Cmd) : list string :=
  match exec.envEntries cmd with
  | [] => osEnviron w
  | entries => entries
  end.

(** [cmd.Env] after a non-empty override list [E] was appended, nil
    staying nil for an empty one. *)
Definition mergedEnv (w : World) (cmd : Cmd) (E : list string)
  : option (list string) :=
  match E with
  | [] => Env cmd
  | _ :: _ => Some (baseEnv w cmd ++ E)
  end.


(** The line feed. *)
Definition nl : string := String (Ascii.ascii_of_nat 10) EmptyString.

(** [TestHelperProcess] of the package's test file: the process that
    [helperCommand] launches in place of the real executable. *)
Module HelperProcess.

(** What the process has written and how it has exited. *)
Record Exit : Type := mkExit {
  out : string;
  err : string;
  code : Z
}.

(** [for len(args) > 0 { if args[0] == "--" { args = args[1:]; break };
    args = args[1:] }]. *)
Fixpoint afterSeparator (args : list string) : list string :=
  match args with
  | [] => []
  | a :: rest => if String.eqb a "--" then rest else afterSeparator rest
  end.

(** [for _, e := range os.Environ() { fmt.Println(e) }]. *)
Fixpoint printAll (entries : list string) : string :=
  match entries with
  | [] => ""
  | e :: rest => e ++ nl ++ printAll rest
  end.

Section Formatting.

(** The verb [%q] applied to a string. *)
Variable quote : string -> string.

(** [want] is [os.Getenv("GO_WANT_HELPER_PROCESS")], [osArgs] is
    [os.Args], [environ] is [os.Environ()] and [stdin] is all of
    standard input.  [None]: the function returns without exiting the
    process. *)
Definition TestHelperProcess (want : string) (osArgs environ : list string)
                             (stdin : string) : option Exit :=
  if negb (String.eqb want "1") then None
  else
    let args := afterSeparator osArgs in
    match args with
    | [] => Some (mkExit "" ("No command" ++ nl) 2)
    | cmd :: args =>
        if String.eqb cmd "/bin/bash" then
          Some (mkExit ("Stdout: command " ++ cmd ++ " - Stdin: " ++ stdin ++ nl)
                       ("Stderr: command " ++ cmd ++ nl) 0)
        else if String.eqb cmd "echo" then
          Some (mkExit (strings.Join args " " ++ nl)
                       ("Stderr: command " ++ cmd ++ nl) 0)
        else if String.eqb cmd "env" then
          Some (mkExit (printAll environ) "" 0)
        else
          Some (mkExit "" ("Unknown command " ++ quote cmd ++ nl) 2)
    end.

End Formatting.

End HelperProcess.

(* ================================================================== *)
(** ** Facts about strings and errors *)
(* ================================================================== *)

Lemma prefix_split (a s : string) :
  String.prefix a s = true -> exists b : string, s = (a ++ b)%string.
Proof.
  revert s; induction a as [|c a IH]; intros s H.
  - exists s; reflexivity.
  - destruct s as [|d s]; simpl in H; [discriminate|].
    destruct (Ascii.ascii_dec c d) as [->|]; [|discriminate].
    destruct (IH s H) as [b ->]. exists b; reflexivity.
Qed.

Lemma prefix_append (a b : string) : String.prefix a (a ++ b) = true.
Proof.
  induction a as [|c a IH]; simpl.
  - destruct b; reflexivity.
  - destruct (Ascii.ascii_dec c c); [exact IH | congruence].
Qed.

Lemma append_assoc (a b c : string) :
  ((a ++ b) ++ c)%string = (a ++ (b ++ c))%string.
Proof. induction a as [|x a IH]; simpl; [reflexivity | now rewrite IH]. Qed.

Lemma Contains_prefix (s sub : string) :
  String.prefix sub s = true -> strings.Contains s sub = true.
Proof.
  intros H. destruct s; cbn [strings.Contains]; rewrite H; reflexivity.
Qed.

Lemma Contains_append (before sub behind : string) :
  strings.Contains (before ++ sub ++ behind) sub = true.
Proof.
  induction before as [|c before IH].
  - cbn [append]. apply Contains_prefix, prefix_append.
  - cbn [strings.Contains append].
    destruct (String.prefix sub _); [reflexivity | exact IH].
Qed.

(** [strings.Contains] decides occurrence as a substring, byte for byte. *)
Lemma Contains_occursIn (s sub : string) :
  strings.Contains s sub = true <-> occursIn sub s.
Proof.
  split.
  - induction s as [|c s IH]; cbn [strings.Contains].
    + destruct (String.prefix sub "") eqn:P; [|discriminate].
      intros _. destruct (prefix_split _ _ P) as [b Hb].
      exists ""%string, b. exact Hb.
    + destruct (String.prefix sub (String c s)) eqn:P.
      * intros _. destruct (prefix_split _ _ P) as [b Hb].
        exists ""%string, b. exact Hb.
      * intros H. destruct (IH H) as (before & behind & ->).
        exists (String c before), behind. reflexivity.
  - intros (before & behind & ->). apply Contains_append.
Qed.

Lemma chain_head (e : error) : In e (errors.chain e).
Proof. destruct e; simpl; auto. Qed.

Lemma chain_wrap (e x : error) (msg : string) :
  In x (errors.chain e) -> In x (errors.chain (errors.Wrap e msg)).
Proof. intros H. simpl. right. exact H. Qed.

(* ================================================================== *)
(** ** The environment merger *)
(* ================================================================== *)

Lemma after_after (w : World) (a b : list Event) :
  after (after w a) b = after w (a ++ b).
Proof. unfold after; simpl. rewrite app_assoc. reflexivity. Qed.

(** What [appendEnvironment] computes; it leaves the world as it is. *)
Lemma appendEnvironment_run (cmd : Cmd) (E : list string) (w : World) :
  runState (appendEnvironment cmd E) w =
  (match E with
   | [] => cmd
   | _ :: _ =>
       match exec.envEntries cmd with
       | [] => exec.setEnv cmd (Some (osEnviron w ++ E))
       | _ :: _ => exec.setEnv cmd (Some (exec.envEntries cmd ++ E))
       end
   end, w).
Proof.
  unfold appendEnvironment, exec.lenEnv, exec.envEntries.
  destruct E as [|e E]; [reflexivity|].
  destruct (Env cmd) as [[|x l]|] eqn:HEnv; cbn; rewrite ?HEnv; reflexivity.
Qed.

Lemma appendEnvironment_after (cmd : Cmd) (E : list string) (w : World)
                              (evs : list Event) :
  fst (runState (appendEnvironment cmd E) (after w evs)) =
  fst (runState (appendEnvironment cmd E) w).
Proof. rewrite !appendEnvironment_run. reflexivity. Qed.

(** Precedence in a concatenated environment is positional: the later
    part decides, the earlier part is consulted when the later one has
    no entry for the key. *)
Lemma lookupEnv_app (key : string) (I E : list string) :
  exec.lookupEnv key (I ++ E) =
  match exec.lookupEnv key E with
  | Some v => Some v
  | None => exec.lookupEnv key I
  end.
Proof.
  induction I as [|i I IH]; simpl.
  - destruct (exec.lookupEnv key E); reflexivity.
  - rewrite IH. destruct (exec.lookupEnv key E); reflexivity.
Qed.

(** The environment of the child launched by [RunExecutable] through the
    launcher of the package's tests, as [TestEnvironmentVariables] sets
    it up: the inherited environment is not part of it. *)
Lemma C1_counterexample :
  let w := sampleWorld runsFine in
  let E := ["DEBUG=true"] in
  let r := runState (RunExecutable (helperCommand "command.test")
                       (mkCommand "" None None E) "env" []) w in
  exists cmd,
    launched (events (snd r)) = [cmd] /\
    exec.effectiveEnv (snd r) cmd = ["GO_WANT_HELPER_PROCESS=1"; "DEBUG=true"] /\
    exec.effectiveEnv (snd r) cmd <> osEnviron w ++ E.
Proof.
  eexists. split; [reflexivity|]. split; [reflexivity|].
  cbn. discriminate.
Qed.

(** C1, as amended: on a command object whose environment slice is empty
    when the overrides are applied (as the default launcher leaves it),
    a non-empty override list [E] makes the effective environment of the
    child the inherited environment [I] followed by [E], so that for a
    key occurring more than once the last positional occurrence supplies
    the value; an empty [E] leaves the command object untouched, and the
    child inherits exactly [I] when the slice is nil. *)
Theorem C1_effective_environment (cmd : Cmd) (E : list string) (w : World) :
  exec.lenEnv cmd = 0 ->
  let r := runState (appendEnvironment cmd E) w in
  snd r = w /\
  (E <> [] ->
     exec.effectiveEnv w (fst r) = osEnviron w ++ E /\
     forall key,
       exec.lookupEnv key (exec.effectiveEnv w (fst r)) =
       match exec.lookupEnv key E with
       | Some v => Some v
       | None => exec.lookupEnv key (osEnviron w)
       end) /\
  (E = [] ->
     fst r = cmd /\
     (Env cmd = None -> exec.effectiveEnv w (fst r) = osEnviron w)).
Proof.
  intros Hlen r. subst r. rewrite appendEnvironment_run. cbn [fst snd].
  split; [reflexivity|]. split.
  - intros HE. destruct E as [|e E]; [congruence|].
    assert (Hnil : exec.envEntries cmd = []).
    { unfold exec.lenEnv in Hlen. unfold exec.envEntries.
      destruct (Env cmd) as [[|x l]|]; [reflexivity|discriminate|reflexivity]. }
    rewrite Hnil. cbn [exec.effectiveEnv exec.setEnv Env].
    split; [reflexivity|]. intros key. apply lookupEnv_app.
  - intros ->. split; [reflexivity|].
    intros HEnv. unfold exec.effectiveEnv. rewrite HEnv. reflexivity.
Qed.

Lemma C1_effective_environment_witness :
  let w := sampleWorld runsFine in
  let r := runState (appendEnvironment (exec.Command "env" [])
                                       ["DEBUG=true"; "DEBUG=1"]) w in
  exec.effectiveEnv w (fst r)
    = ["PATH=/usr/bin"; "DEBUG=false"; "DEBUG=true"; "DEBUG=1"] /\
  exec.lookupEnv "DEBUG" (exec.effectiveEnv w (fst r)) = Some "1" /\
  exec.lookupEnv "PATH" (exec.effectiveEnv w (fst r)) = Some "/usr/bin".
Proof.
  pose proof (C1_effective_environment (exec.Command "env" [])
                ["DEBUG=true"; "DEBUG=1"] (sampleWorld runsFine)
                eq_refl) as H.
  cbv zeta in H. destruct H as (_ & H & _).
  destruct (H ltac:(discriminate)) as [Heq Hkey].
  split; [exact Heq|].
  split; [exact (Hkey "DEBUG") | exact (Hkey "PATH")].
Defined.

(** C10: with a non-empty override list [E] applied to a command object
    whose environment slice is already non-empty, the inherited
    environment is not consulted: the effective environment is the
    pre-existing slice followed by [E], whatever the process environment
    is; the inherited environment is copied in only when the slice is
    empty. *)
Theorem C10_prepopulated_environment (cmd : Cmd) (E : list string)
                                     (w : World) :
  E <> [] ->
  (exec.lenEnv cmd <> 0 ->
     exec.effectiveEnv w (fst (runState (appendEnvironment cmd E) w))
       = exec.envEntries cmd ++ E /\
     forall w' : World,
       fst (runState (appendEnvironment cmd E) w')
       = fst (runState (appendEnvironment cmd E) w)) /\
  (exec.lenEnv cmd = 0 ->
     exec.effectiveEnv w (fst (runState (appendEnvironment cmd E) w))
       = osEnviron w ++ E).
Proof.
  intros HE. rewrite appendEnvironment_run. cbn [fst].
  destruct E as [|e E]; [congruence|].
  unfold exec.lenEnv, exec.envEntries.
  destruct (Env cmd) as [[|x l]|] eqn:HEnv; cbn [List.length]; split;
    try congruence; try (intros _; reflexivity); try discriminate.
  intros _. split; [reflexivity|].
  intros w'. rewrite appendEnvironment_run.
  unfold exec.envEntries. rewrite HEnv. reflexivity.
Qed.

Lemma C10_prepopulated_environment_witness :
  let cmd := helperCommand "command.test" "env" [] in
  let w := sampleWorld runsFine in
  exec.effectiveEnv w (fst (runState (appendEnvironment cmd ["DEBUG=true"]) w))
  = ["GO_WANT_HELPER_PROCESS=1"; "DEBUG=true"].
Proof.
  exact (proj1 (proj1 (C10_prepopulated_environment
                         (helperCommand "command.test" "env" [])
                         ["DEBUG=true"] (sampleWorld runsFine)
                         ltac:(discriminate))
                      ltac:(discriminate))).
Defined.

(* ================================================================== *)
(** ** Starting and joining a command *)
(* ================================================================== *)

(** Running a sequence of two computations. *)
Lemma run_bind {A B : Type} (m : M A) (k : A -> M B) (w : World) :
  runState (bind m k) w =
  let (a, w') := runState m w in runState (k a) w'.
Proof. reflexivity. Qed.

(** Unfolding of the platform calls and of the monad they live in. *)
Ltac run_platform :=
  unfold startCmd, cmdPipes, exec.StdoutPipe, exec.StderrPipe, exec.Start,
         exec.Wait, Wait, finishAll, finish, io_Copy, spawn, behaviour,
         log.Infof, emit, prepareOut, os.Stdout, os.Stderr;
  cbn.

Lemma startCmd_stdout_pipe_fails (cmd : Cmd) (o e : io.Writer) (w : World)
                                 (err : error) :
  stdoutPipeErr (child w cmd) = Some err ->
  runState (startCmd cmd o e) w =
  (inl (errors.Wrap (errors.Wrap err "getting Stdout pipe failed")
                    "getting command pipes failed"),
   after w [EvStdoutPipe cmd false]).
Proof. intros H. run_platform. rewrite H. reflexivity. Qed.

Lemma startCmd_stderr_pipe_fails (cmd : Cmd) (o e : io.Writer) (w : World)
                                 (err : error) :
  stdoutPipeErr (child w cmd) = None ->
  stderrPipeErr (child w cmd) = Some err ->
  runState (startCmd cmd o e) w =
  (inl (errors.Wrap (errors.Wrap err "getting Stderr pipe failed")
                    "getting command pipes failed"),
   after w [EvStdoutPipe cmd true; EvStderrPipe cmd false]).
Proof.
  intros H1 H2. run_platform. rewrite H1. cbn. rewrite H2. cbn.
  rewrite after_after. reflexivity.
Qed.

Lemma startCmd_start_fails (cmd : Cmd) (o e : io.Writer) (w : World)
                           (err : error) :
  stdoutPipeErr (child w cmd) = None ->
  stderrPipeErr (child w cmd) = None ->
  startErr (child w cmd) = Some err ->
  runState (startCmd cmd o e) w =
  (inl (errors.Wrap err "starting command failed"),
   after w [EvStdoutPipe cmd true; EvStderrPipe cmd true; EvStart cmd false]).
Proof.
  intros H1 H2 H3. run_platform. rewrite H1. cbn. rewrite H2. cbn.
  rewrite H3. cbn. rewrite !after_after. reflexivity.
Qed.

Lemma startCmd_starts (cmd : Cmd) (o e : io.Writer) (w : World) :
  starts w cmd ->
  runState (startCmd cmd o e) w =
  (inr (mkExecution cmd [mkDrain StdoutStream o StdoutStream;
                         mkDrain StderrStream e StderrStream] None None),
   after w [EvStdoutPipe cmd true; EvStderrPipe cmd true; EvStart cmd true;
            EvGo cmd StdoutStream o; EvGo cmd StderrStream e]).
Proof.
  intros (H1 & H2 & H3). run_platform. rewrite H1. cbn. rewrite H2. cbn.
  rewrite H3. cbn. rewrite !after_after. reflexivity.
Qed.

(** Joining the execution that [startCmd] hands out: both drains have
    recorded their copy error, the process has exited. *)
Lemma Wait_started (cmd : Cmd) (o e : io.Writer) (w : World) :
  runState (Wait (mkExecution cmd [mkDrain StdoutStream o StdoutStream;
                                   mkDrain StderrStream e StderrStream]
                              None None)) w =
  ((mkExecution cmd [] (copyStdoutErr (child w cmd))
                       (copyStderrErr (child w cmd)),
    waitErr (child w cmd)),
   after w [EvWait cmd]).
Proof. reflexivity. Qed.

Lemma child_after (w : World) (evs : list Event) :
  child (after w evs) = child w.
Proof. reflexivity. Qed.

Lemma starts_after (w : World) (evs : list Event) (cmd : Cmd) :
  starts (after w evs) cmd <-> starts w cmd.
Proof. unfold starts. rewrite child_after. tauto. Qed.

(** The case analysis of [runCmd] on the two copy errors is the one of
    [joinResult]. *)
Lemma joinResult_cases (h : execution) (exitErr : option error) :
  joinResult h exitErr =
  if isSome (errCopyStdout h) || isSome (errCopyStderr h)
  then fmt.Errorf ("failed to capture stdout/stderr: '"
                   ++ fmt.v (errCopyStdout h) ++ "'/'"
                   ++ fmt.v (errCopyStderr h) ++ "'")
  else match exitErr with
       | Some err => Some (errors.Wrap err "cmd.Run() failed")
       | None => None
       end.
Proof.
  unfold joinResult.
  destruct (errCopyStdout h), (errCopyStderr h); reflexivity.
Qed.

(** [runCmd] is start, then join, then the aggregated result. *)
Lemma runCmd_startThenJoin (cmd : Cmd) (o e : io.Writer) (w : World) :
  runState (runCmd cmd o e) w = runState (startThenJoin cmd o e) w.
Proof.
  unfold runCmd, startThenJoin. rewrite !run_bind.
  destruct (runState (startCmd cmd o e) w) as [[err|h] w1]; [reflexivity|].
  rewrite !run_bind.
  destruct (runState (Wait h) w1) as [[h' exitErr] w2].
  rewrite joinResult_cases.
  destruct (isSome (errCopyStdout h') || isSome (errCopyStderr h'));
    [reflexivity|].
  destruct exitErr; reflexivity.
Qed.

(** A run of [runCmd] whose process gets started. *)
Lemma runCmd_started (cmd : Cmd) (o e : io.Writer) (w : World) :
  starts w cmd ->
  runState (runCmd cmd o e) w =
  (joinResult (mkExecution cmd [] (copyStdoutErr (child w cmd))
                                  (copyStderrErr (child w cmd)))
              (waitErr (child w cmd)),
   after w [EvStdoutPipe cmd true; EvStderrPipe cmd true; EvStart cmd true;
            EvGo cmd StdoutStream o; EvGo cmd StderrStream e; EvWait cmd]).
Proof.
  intros H. rewrite runCmd_startThenJoin. unfold startThenJoin.
  rewrite run_bind, (startCmd_starts cmd o e w H), run_bind, Wait_started.
  rewrite child_after, after_after. reflexivity.
Qed.

(** A run of [runCmd] whose process does not get started: the failure of
    [startCmd] is handed on as it is. *)
Lemma runCmd_not_started (cmd : Cmd) (o e : io.Writer) (w w' : World)
                         (err : error) :
  runState (startCmd cmd o e) w = (inl err, w') ->
  runState (runCmd cmd o e) w = (Some err, w').
Proof.
  intros H. unfold runCmd. rewrite run_bind, H. reflexivity.
Qed.

(* ================================================================== *)
(** ** The dispatcher *)
(* ================================================================== *)

Lemma appendEnvironment_world (cmd : Cmd) (E : list string) (w : World) :
  runState (appendEnvironment cmd E) w
  = (fst (runState (appendEnvironment cmd E) w), w).
Proof. rewrite appendEnvironment_run. reflexivity. Qed.

(** Each entry point resolves the sinks, builds the command object,
    writes one log line and hands over to [runCmd] or [startCmd]. *)
Section EntryPoints.

Variable L : string -> list string -> Cmd.
Variable c : Command.
Variable w : World.

Lemma prepareOut_run :
  runState (prepareOut (stdout c) (stderr c)) w
  = ((sinkOut c w, sinkErr c w), w).
Proof.
  unfold prepareOut, sinkOut, sinkErr.
  destruct (stdout c), (stderr c); reflexivity.
Qed.

Lemma RunExecutable_run (executable : string) (params : list string) :
  runState (RunExecutable L c executable params) w =
  let (err, w') :=
    runState (runCmd (executableCmd L c executable params w)
                     (sinkOut c w) (sinkErr c w))
             (after w [EvLog ("running command: " ++ executable ++ " "
                              ++ strings.Join params " ")]) in
  (wrapped ("running command '" ++ executable ++ "' failed") err, w').
Proof.
  unfold RunExecutable, executableCmd.
  rewrite run_bind, prepareOut_run, run_bind.
  unfold log.Infof at 1. unfold emit at 1. cbn [runState].
  rewrite run_bind, appendEnvironment_world, appendEnvironment_after.
  rewrite run_bind.
  destruct (runState (runCmd _ _ _) _) as [[err|] w']; reflexivity.
Qed.

Lemma RunExecutableInBackground_run (executable : string)
                                    (params : list string) :
  runState (RunExecutableInBackground L c executable params) w =
  let (r, w') :=
    runState (startCmd (executableCmd L c executable params w)
                       (sinkOut c w) (sinkErr c w))
             (after w [EvLog ("running command: " ++ executable ++ " "
                              ++ strings.Join params " ")]) in
  (match r with
   | inl err =>
       inl (errors.Wrapf err ("starting command '" ++ executable ++ "' failed"))
   | inr handle => inr handle
   end, w').
Proof.
  unfold RunExecutableInBackground, executableCmd.
  rewrite run_bind, prepareOut_run, run_bind.
  unfold log.Infof at 1. unfold emit at 1. cbn [runState].
  rewrite run_bind, appendEnvironment_world, appendEnvironment_after.
  rewrite run_bind.
  destruct (runState (startCmd _ _ _) _) as [[err|h] w']; reflexivity.
Qed.

Lemma RunShell_run (shell script : string) :
  runState (RunShell L c shell script) w =
  let (err, w') :=
    runState (runCmd (shellCmd L c shell script w)
                     (sinkOut c w) (sinkErr c w))
             (after w [EvLog ("running shell script: " ++ shell ++ " "
                              ++ script)]) in
  (wrapped ("running shell script failed with " ++ shell) err, w').
Proof.
  unfold RunShell, shellCmd.
  rewrite run_bind, prepareOut_run, run_bind, appendEnvironment_world.
  rewrite run_bind.
  unfold log.Infof at 1. unfold emit at 1. cbn [runState].
  rewrite run_bind.
  destruct (runState (runCmd _ _ _) _) as [[err|] w']; reflexivity.
Qed.

End EntryPoints.

(* ================================================================== *)
(** ** Failures of a run *)
(* ================================================================== *)

Lemma occursIn_intro (before sub behind : string) :
  occursIn sub (before ++ sub ++ behind).
Proof. exists before, behind. reflexivity. Qed.

Lemma occursIn_fmt_v (x : error) (before behind : string) :
  occursIn (Error x) (before ++ fmt.v (Some x) ++ behind).
Proof. apply occursIn_intro. Qed.

(** A run whose two drains fail and whose process exits with status 3:
    the failure names the two copy errors in its text, but neither the
    exit status nor the exit error is in it, and unwrapping it reaches
    neither copy error. *)
Lemma C2_counterexample :
  let w := sampleWorld drainsFail in
  let r := fst (runState (RunExecutable exec.Command
                            (mkCommand "" None None []) "make" ["all"]) w) in
  exists failure,
    r = Some failure /\
    Error failure = "running command 'make' failed: failed to capture stdout/stderr: 'write: broken pipe'/'short write'" /\
    strings.Contains (Error failure) (Error (ExitError 3)) = false /\
    ~ In (ExitError 3) (errors.chain failure) /\
    ~ In (osError "write: broken pipe") (errors.chain failure) /\
    ~ In (osError "short write") (errors.chain failure).
Proof.
  eexists. split; [reflexivity|]. split; [reflexivity|].
  split; [reflexivity|].
  cbn. repeat split; intros [H|[H|[]]]; discriminate H.
Qed.

(** C2, as amended: for every run in which a copy error occurs on either
    stream after the process started, [runCmd] fails with a newly made
    error whose text is [failed to capture stdout/stderr: 'o'/'e'] with
    [o] and [e] the texts of the two copy errors ([<nil>] for an absent
    one), so both are reported if both occurred; the copy errors are in
    the failure as text only, there is nothing to unwrap from it. *)
Theorem C2_stream_copy_failure (cmd : Cmd) (o e : io.Writer) (w : World) :
  starts w cmd ->
  copyStdoutErr (child w cmd) <> None \/ copyStderrErr (child w cmd) <> None ->
  exists failure,
    fst (runState (runCmd cmd o e) w) = Some failure /\
    failure = errorString ("failed to capture stdout/stderr: '"
                           ++ fmt.v (copyStdoutErr (child w cmd)) ++ "'/'"
                           ++ fmt.v (copyStderrErr (child w cmd)) ++ "'") /\
    (forall x, copyStdoutErr (child w cmd) = Some x ->
               occursIn (Error x) (Error failure)) /\
    (forall x, copyStderrErr (child w cmd) = Some x ->
               occursIn (Error x) (Error failure)) /\
    errors.chain failure = [failure].
Proof.
  intros Hs Hcopy. rewrite (runCmd_started cmd o e w Hs). cbn [fst].
  rewrite joinResult_cases. cbn [errCopyStdout errCopyStderr].
  assert (Hb : isSome (copyStdoutErr (child w cmd))
               || isSome (copyStderrErr (child w cmd)) = true).
  { destruct (copyStdoutErr (child w cmd)), (copyStderrErr (child w cmd));
      try reflexivity. destruct Hcopy; congruence. }
  rewrite Hb. eexists. split; [reflexivity|]. split; [reflexivity|].
  split; [|split; [|reflexivity]].
  - intros x ->. cbn [Error]. apply occursIn_fmt_v.
  - intros x ->. cbn [Error].
    exists ("failed to capture stdout/stderr: '"
            ++ fmt.v (copyStdoutErr (child w cmd)) ++ "'/'")%string,
           "'"%string.
    rewrite !append_assoc. reflexivity.
Qed.

Lemma C2_stream_copy_failure_witness :
  exists failure,
    fst (runState (runCmd (exec.Command "make" ["all"])
                          (io.File 1) (io.File 2))
                  (sampleWorld drainsFail)) = Some failure /\
    failure = errorString
      "failed to capture stdout/stderr: 'write: broken pipe'/'short write'".
Proof.
  destruct (C2_stream_copy_failure (exec.Command "make" ["all"])
              (io.File 1) (io.File 2) (sampleWorld drainsFail))
    as (failure & Hrun & Hfailure & _).
  - repeat split.
  - left. discriminate.
  - exists failure. split; [exact Hrun | exact Hfailure].
Defined.

(** A run of [ls --bogus] that exits with status 2: the failure names
    the executable, the argument is not in it. *)
Lemma C3_counterexample :
  let w := sampleWorld (exitsWith 2) in
  let r := fst (runState (RunExecutable exec.Command
                            (mkCommand "" None None []) "ls" ["--bogus"]) w) in
  exists failure,
    r = Some failure /\
    Error failure = "running command 'ls' failed: cmd.Run() failed: exit status 2" /\
    strings.Contains (Error failure) "--bogus" = false.
Proof.
  eexists. split; [reflexivity|]. split; reflexivity.
Qed.

(** C3, as amended: for every run of [RunExecutable] whose process exits
    with an error and whose drains both succeed, the returned failure is
    the exit error wrapped with [cmd.Run() failed] and then with the
    executable name (the arguments are not part of it), and the exit
    error is preserved as the cause. *)
Theorem C3_nonzero_exit (L : string -> list string -> Cmd) (c : Command)
    (executable : string) (params : list string) (w : World)
    (exitErr : error) :
  let cmd := executableCmd L c executable params w in
  starts w cmd ->
  copyStdoutErr (child w cmd) = None ->
  copyStderrErr (child w cmd) = None ->
  waitErr (child w cmd) = Some exitErr ->
  exists failure,
    fst (runState (RunExecutable L c executable params) w) = Some failure /\
    failure = errors.Wrapf (errors.Wrap exitErr "cmd.Run() failed")
                ("running command '" ++ executable ++ "' failed") /\
    Error failure = ("running command '" ++ executable
                     ++ "' failed: cmd.Run() failed: " ++ Error exitErr)%string /\
    occursIn executable (Error failure) /\
    In exitErr (errors.chain failure) /\
    errors.Cause failure = errors.Cause exitErr.
Proof.
  intros cmd Hs Hout Herr Hexit. rewrite RunExecutable_run. fold cmd.
  rewrite runCmd_started by (apply starts_after; exact Hs).
  rewrite child_after, Hout, Herr, Hexit. cbn [fst joinResult wrapped
    errCopyStdout errCopyStderr option_map].
  eexists. split; [reflexivity|]. split; [reflexivity|].
  split; [|split; [|split; [|reflexivity]]].
  - cbn [Error errors.Wrapf errors.Wrap].
    rewrite !append_assoc. reflexivity.
  - cbn [Error errors.Wrapf errors.Wrap].
    exists "running command '"%string,
           ("' failed: cmd.Run() failed: " ++ Error exitErr)%string.
    rewrite !append_assoc. reflexivity.
  - apply chain_wrap, chain_wrap, chain_head.
Qed.

Lemma C3_nonzero_exit_witness :
  fst (runState (RunExecutable exec.Command (mkCommand "" None None [])
                   "ls" ["--bogus"]) (sampleWorld (exitsWith 2)))
  = Some (errors.Wrapf (errors.Wrap (ExitError 2) "cmd.Run() failed")
                       "running command 'ls' failed").
Proof.
  destruct (C3_nonzero_exit exec.Command (mkCommand "" None None [])
              "ls" ["--bogus"] (sampleWorld (exitsWith 2)) (ExitError 2)
              (conj eq_refl (conj eq_refl eq_refl)) eq_refl eq_refl eq_refl)
    as (failure & Hrun & Hfailure & _).
  rewrite Hrun, Hfailure. reflexivity.
Defined.

(* ================================================================== *)
(** ** Order of pipe attachment and start *)
(* ================================================================== *)

(** C4: in every launch the stdout pipe and then the stderr pipe are
    obtained before the process is started: what precedes the start is
    exactly the two successful attachments; and if either pipe cannot be
    obtained the launch fails with [getting command pipes failed], with
    no start of the process, no handle and no drain task. *)
Theorem C4_pipes_before_start (cmd : Cmd) (o e : io.Writer) (w : World) :
  exists evs,
    snd (runState (startCmd cmd o e) w) = after w evs /\
    (forall pre, beforeStart evs = Some pre ->
       pre = [EvStdoutPipe cmd true; EvStderrPipe cmd true]) /\
    (stdoutPipeErr (child w cmd) = None ->
     stderrPipeErr (child w cmd) = None ->
     beforeStart evs = Some [EvStdoutPipe cmd true; EvStderrPipe cmd true] /\
     launched evs = [cmd]) /\
    (stdoutPipeErr (child w cmd) <> None \/
     stderrPipeErr (child w cmd) <> None ->
     neverStarted evs = true /\
     exists cause,
       fst (runState (startCmd cmd o e) w)
       = inl (errors.Wrap cause "getting command pipes failed")).
Proof.
  destruct (stdoutPipeErr (child w cmd)) as [e1|] eqn:H1.
  { rewrite (startCmd_stdout_pipe_fails cmd o e w e1 H1).
    eexists. split; [reflexivity|]. split; [discriminate|].
    split; [discriminate|]. intros _. split; [reflexivity|].
    eexists. reflexivity. }
  destruct (stderrPipeErr (child w cmd)) as [e2|] eqn:H2.
  { rewrite (startCmd_stderr_pipe_fails cmd o e w e2 H1 H2).
    eexists. split; [reflexivity|]. split; [discriminate|].
    split; [discriminate|]. intros _. split; [reflexivity|].
    eexists. reflexivity. }
  destruct (startErr (child w cmd)) as [e3|] eqn:H3.
  { rewrite (startCmd_start_fails cmd o e w e3 H1 H2 H3).
    eexists. split; [reflexivity|].
    split; [intros pre [= <-]; reflexivity|].
    split; [split; reflexivity|]. intros [H|H]; congruence. }
  rewrite (startCmd_starts cmd o e w (conj H1 (conj H2 H3))).
  eexists. split; [reflexivity|].
  split; [intros pre [= <-]; reflexivity|].
  split; [split; reflexivity|]. intros [H|H]; congruence.
Qed.

Lemma C4_pipes_before_start_witness :
  let cmd := exec.Command "make" ["all"] in
  exists evs,
    snd (runState (startCmd cmd (io.File 1) (io.File 2))
                  (sampleWorld noStderrPipe))
    = after (sampleWorld noStderrPipe) evs /\
    neverStarted evs = true /\
    exists cause,
      fst (runState (startCmd cmd (io.File 1) (io.File 2))
                    (sampleWorld noStderrPipe))
      = inl (errors.Wrap cause "getting command pipes failed").
Proof.
  intros cmd.
  destruct (C4_pipes_before_start cmd (io.File 1) (io.File 2)
              (sampleWorld noStderrPipe)) as (evs & Hw & _ & _ & Hfail).
  exists evs. split; [exact Hw|].
  apply Hfail. right. discriminate.
Defined.

(* ================================================================== *)
(** ** Blocking runs are start, then join *)
(* ================================================================== *)

(** C5: the blocking [RunExecutable] is the non-blocking start followed
    immediately by the join: it launches the command object that
    [RunExecutableInBackground] launches, with the same drains, passes
    through the same worlds, and its result is the aggregated result of
    the joined handle with the name of the executable put in front; when
    the start fails both report the same cause.  Likewise [RunShell] is
    start, then join, on the shell's command object, and [runCmd] is
    start, then join. *)
Theorem C5_blocking_is_start_then_join (L : string -> list string -> Cmd)
    (c : Command) (executable : string) (params : list string)
    (shell script : string) (w : World) :
  match runState (RunExecutableInBackground L c executable params) w with
  | (inr handle, w1) =>
      let (joined, w2) := runState (Wait handle) w1 in
      runState (RunExecutable L c executable params) w
      = (wrapped ("running command '" ++ executable ++ "' failed")
                 (joinResult (fst joined) (snd joined)), w2)
  | (inl failure, w1) =>
      exists cause,
        failure = errors.Wrapf cause
                    ("starting command '" ++ executable ++ "' failed") /\
        runState (RunExecutable L c executable params) w
        = (Some (errors.Wrapf cause
                   ("running command '" ++ executable ++ "' failed")), w1)
  end /\
  runState (RunShell L c shell script) w
  = (let (result, w') :=
       runState (startThenJoin (shellCmd L c shell script w)
                               (sinkOut c w) (sinkErr c w))
                (after w [EvLog ("running shell script: " ++ shell ++ " "
                                 ++ script)]) in
     (wrapped ("running shell script failed with " ++ shell) result, w')) /\
  (forall (cmd : Cmd) (o e : io.Writer),
     runState (runCmd cmd o e) w = runState (startThenJoin cmd o e) w).
Proof.
  split; [|split].
  - rewrite RunExecutableInBackground_run, RunExecutable_run.
    rewrite runCmd_startThenJoin. unfold startThenJoin. rewrite run_bind.
    destruct (runState (startCmd _ _ _) _) as [[err|handle] w1].
    + exists err. split; reflexivity.
    + rewrite run_bind.
      destruct (runState (Wait handle) w1) as [[handle' exitErr] w2].
      reflexivity.
  - rewrite RunShell_run, runCmd_startThenJoin. reflexivity.
  - intros cmd o e. apply runCmd_startThenJoin.
Qed.

(* ================================================================== *)
(** ** Failing to start *)
(* ================================================================== *)

(** C6: when the process of a launch cannot be created the run fails
    with the start error wrapped with the name of the executable, and
    [RunExecutableInBackground] returns no handle but the wrapped
    failure; no drain task exists. *)
Theorem C6_start_failure (L : string -> list string -> Cmd) (c : Command)
    (executable : string) (params : list string) (w : World)
    (cause : error) :
  let cmd := executableCmd L c executable params w in
  stdoutPipeErr (child w cmd) = None ->
  stderrPipeErr (child w cmd) = None ->
  startErr (child w cmd) = Some cause ->
  exists failure evs,
    runState (RunExecutableInBackground L c executable params) w
    = (inl failure, after w evs) /\
    failure = errors.Wrapf (errors.Wrap cause "starting command failed")
                ("starting command '" ++ executable ++ "' failed") /\
    occursIn executable (Error failure) /\
    In cause (errors.chain failure) /\
    errors.Cause failure = errors.Cause cause /\
    drains evs = [] /\
    In (EvStart cmd false) evs /\
    fst (runState (RunExecutable L c executable params) w)
    = Some (errors.Wrapf (errors.Wrap cause "starting command failed")
              ("running command '" ++ executable ++ "' failed")).
Proof.
  intros cmd H1 H2 H3.
  rewrite RunExecutableInBackground_run, RunExecutable_run. fold cmd.
  pose proof (startCmd_start_fails cmd (sinkOut c w) (sinkErr c w)
                (after w [EvLog ("running command: " ++ executable ++ " "
                                 ++ strings.Join params " ")])
                cause H1 H2 H3) as Hstart.
  rewrite (runCmd_not_started _ _ _ _ _ _ Hstart), Hstart, after_after.
  eexists. eexists. split; [reflexivity|]. split; [reflexivity|].
  split; [|split; [|split; [|split; [|split]]]].
  - cbn [Error errors.Wrapf errors.Wrap].
    exists "starting command '"%string,
           ("' failed: starting command failed: " ++ Error cause)%string.
    rewrite !append_assoc. reflexivity.
  - apply chain_wrap, chain_wrap, chain_head.
  - reflexivity.
  - reflexivity.
  - cbn. auto.
  - reflexivity.
Qed.

Lemma C6_start_failure_witness :
  exists failure evs,
    runState (RunExecutableInBackground exec.Command
                (mkCommand "" None None []) "no-such-tool" ["--version"])
             (sampleWorld notFound)
    = (inl failure, after (sampleWorld notFound) evs) /\
    failure = errors.Wrapf
                (errors.Wrap (osError "executable file not found in $PATH")
                             "starting command failed")
                "starting command 'no-such-tool' failed" /\
    drains evs = [].
Proof.
  destruct (C6_start_failure exec.Command (mkCommand "" None None [])
              "no-such-tool" ["--version"] (sampleWorld notFound)
              (osError "executable file not found in $PATH")
              eq_refl eq_refl eq_refl)
    as (failure & evs & Hrun & Hfailure & _ & _ & _ & Hdrains & _).
  exists failure, evs. repeat split; assumption.
Defined.

(* ================================================================== *)
(** ** What a run launches and where it drains *)
(* ================================================================== *)

Ltac failed_launch :=
  eexists; split; [reflexivity|];
  split; [first [discriminate | intros pre [= <-]; reflexivity]|];
  split; [first [left; reflexivity | right; reflexivity]|];
  split; [left; reflexivity|];
  intros (? & ? & ?); congruence.

Lemma startCmd_trace (cmd : Cmd) (o e : io.Writer) (w : World) :
  exists evs,
    snd (runState (startCmd cmd o e) w) = after w evs /\
    launchTrace cmd o e w evs.
Proof.
  unfold launchTrace.
  destruct (stdoutPipeErr (child w cmd)) as [e1|] eqn:H1.
  { rewrite (startCmd_stdout_pipe_fails cmd o e w e1 H1). failed_launch. }
  destruct (stderrPipeErr (child w cmd)) as [e2|] eqn:H2.
  { rewrite (startCmd_stderr_pipe_fails cmd o e w e2 H1 H2). failed_launch. }
  destruct (startErr (child w cmd)) as [e3|] eqn:H3.
  { rewrite (startCmd_start_fails cmd o e w e3 H1 H2 H3). failed_launch. }
  rewrite (startCmd_starts cmd o e w (conj H1 (conj H2 H3))).
  eexists. split; [reflexivity|].
  split; [intros pre [= <-]; reflexivity|].
  split; [right; reflexivity|]. split; [right; reflexivity|].
  intros _. split; reflexivity.
Qed.

Lemma runCmd_trace (cmd : Cmd) (o e : io.Writer) (w : World) :
  exists evs,
    snd (runState (runCmd cmd o e) w) = after w evs /\
    launchTrace cmd o e w evs.
Proof.
  unfold launchTrace.
  destruct (stdoutPipeErr (child w cmd)) as [e1|] eqn:H1.
  { rewrite (runCmd_not_started _ _ _ _ _ _
               (startCmd_stdout_pipe_fails cmd o e w e1 H1)).
    failed_launch. }
  destruct (stderrPipeErr (child w cmd)) as [e2|] eqn:H2.
  { rewrite (runCmd_not_started _ _ _ _ _ _
               (startCmd_stderr_pipe_fails cmd o e w e2 H1 H2)).
    failed_launch. }
  destruct (startErr (child w cmd)) as [e3|] eqn:H3.
  { rewrite (runCmd_not_started _ _ _ _ _ _
               (startCmd_start_fails cmd o e w e3 H1 H2 H3)).
    failed_launch. }
  rewrite (runCmd_started cmd o e w (conj H1 (conj H2 H3))).
  eexists. split; [reflexivity|].
  split; [intros pre [= <-]; reflexivity|].
  split; [right; reflexivity|]. split; [right; reflexivity|].
  intros _. split; reflexivity.
Qed.

(** A launch that comes after a log line. *)
Lemma launchTrace_logged (cmd : Cmd) (o e : io.Writer) (w : World)
      (line : string) (evs : list Event) :
  launchTrace cmd o e (after w [EvLog line]) evs ->
  (forall pre, beforeStart (EvLog line :: evs) = Some pre ->
     pre = [EvLog line; EvStdoutPipe cmd true; EvStderrPipe cmd true]) /\
  (launched (EvLog line :: evs) = [] \/ launched (EvLog line :: evs) = [cmd]) /\
  (starts w cmd ->
     launched (EvLog line :: evs) = [cmd] /\
     drains (EvLog line :: evs) = [(StdoutStream, o); (StderrStream, e)]).
Proof.
  intros (Hpre & Hl & _ & Hs). cbn [beforeStart launched drains].
  split; [|split; [exact Hl|]].
  - intros pre H. destruct (beforeStart evs) as [pre'|]; [|discriminate].
    injection H as <-. rewrite (Hpre pre' eq_refl). reflexivity.
  - intros H. apply Hs. apply starts_after. exact H.
Qed.

(** The blocking entry points: one log line, then the launch. *)
Lemma RunExecutable_trace (L : string -> list string -> Cmd) (c : Command)
      (executable : string) (params : list string) (w : World) :
  let cmd := executableCmd L c executable params w in
  let line := ("running command: " ++ executable ++ " "
               ++ strings.Join params " ")%string in
  exists evs,
    snd (runState (RunExecutable L c executable params) w)
    = after w (EvLog line :: evs) /\
    launchTrace cmd (sinkOut c w) (sinkErr c w) (after w [EvLog line]) evs.
Proof.
  intros cmd line. rewrite RunExecutable_run. fold cmd line.
  destruct (runCmd_trace cmd (sinkOut c w) (sinkErr c w)
              (after w [EvLog line])) as (evs & Hw & Ht).
  destruct (runState (runCmd _ _ _) _) as [err w'].
  cbn [snd] in *. subst w'. rewrite after_after.
  exists evs. split; [reflexivity | exact Ht].
Qed.

Lemma RunExecutableInBackground_trace (L : string -> list string -> Cmd)
      (c : Command) (executable : string) (params : list string)
      (w : World) :
  let cmd := executableCmd L c executable params w in
  let line := ("running command: " ++ executable ++ " "
               ++ strings.Join params " ")%string in
  exists evs,
    snd (runState (RunExecutableInBackground L c executable params) w)
    = after w (EvLog line :: evs) /\
    launchTrace cmd (sinkOut c w) (sinkErr c w) (after w [EvLog line]) evs.
Proof.
  intros cmd line. rewrite RunExecutableInBackground_run. fold cmd line.
  destruct (startCmd_trace cmd (sinkOut c w) (sinkErr c w)
              (after w [EvLog line])) as (evs & Hw & Ht).
  destruct (runState (startCmd _ _ _) _) as [r w'].
  cbn [snd] in *. subst w'. rewrite after_after.
  exists evs. split; [reflexivity | exact Ht].
Qed.

Lemma RunShell_trace (L : string -> list string -> Cmd) (c : Command)
      (shell script : string) (w : World) :
  let cmd := shellCmd L c shell script w in
  let line := ("running shell script: " ++ shell ++ " " ++ script)%string in
  exists evs,
    snd (runState (RunShell L c shell script) w)
    = after w (EvLog line :: evs) /\
    launchTrace cmd (sinkOut c w) (sinkErr c w) (after w [EvLog line]) evs.
Proof.
  intros cmd line. rewrite RunShell_run. fold cmd line.
  destruct (runCmd_trace cmd (sinkOut c w) (sinkErr c w)
              (after w [EvLog line])) as (evs & Hw & Ht).
  destruct (runState (runCmd _ _ _) _) as [err w'].
  cbn [snd] in *. subst w'. rewrite after_after.
  exists evs. split; [reflexivity | exact Ht].
Qed.

(** What the dispatcher does to the command object of the launcher:
    directory, environment and standard input, nothing else. *)
Lemma appendEnvironment_keeps (cmd : Cmd) (E : list string) (w : World) :
  let cmd' := fst (runState (appendEnvironment cmd E) w) in
  Path cmd' = Path cmd /\ Args cmd' = Args cmd /\
  Dir cmd' = Dir cmd /\ Stdin cmd' = Stdin cmd.
Proof.
  cbv zeta. rewrite appendEnvironment_run. cbn [fst].
  destruct E; [tauto|]. destruct (exec.envEntries cmd); cbn; tauto.
Qed.

Lemma applyDir_keeps (c : Command) (cmd : Cmd) :
  Path (applyDir c cmd) = Path cmd /\ Args (applyDir c cmd) = Args cmd /\
  Env (applyDir c cmd) = Env cmd /\ Stdin (applyDir c cmd) = Stdin cmd.
Proof.
  unfold applyDir. destruct (Nat.ltb 0 (String.length (dir c))); cbn; tauto.
Qed.

(** C7: [RunShell] asks the launcher for the shell with no arguments and
    puts the script text, as it is, on the standard input of the command
    object; the only process the run starts is the one of that command
    object, and with the default launcher its argument vector is the
    shell alone. *)
Theorem C7_shell_script_on_stdin (L : string -> list string -> Cmd)
    (c : Command) (shell script : string) (w : World) :
  let cmd := shellCmd L c shell script w in
  Stdin cmd = Some script /\
  Path cmd = Path (L shell []) /\
  Args cmd = Args (L shell []) /\
  Args (shellCmd exec.Command c shell script w) = [shell] /\
  exists evs,
    snd (runState (RunShell L c shell script) w) = after w evs /\
    (launched evs = [] \/ launched evs = [cmd]) /\
    (starts w cmd -> launched evs = [cmd]).
Proof.
  intros cmd.
  assert (Hkeep : forall L',
            Path (shellCmd L' c shell script w) = Path (L' shell []) /\
            Args (shellCmd L' c shell script w) = Args (L' shell [])).
  { intros L'. unfold shellCmd. cbn [exec.setStdin Path Args].
    destruct (appendEnvironment_keeps (applyDir c (L' shell [])) (env c) w)
      as (HP & HA & _).
    destruct (applyDir_keeps c (L' shell [])) as (HP' & HA' & _).
    cbv zeta in HP, HA. split; congruence. }
  split; [reflexivity|].
  split; [apply Hkeep|]. split; [apply Hkeep|].
  split; [exact (proj2 (Hkeep exec.Command))|].
  destruct (RunShell_trace L c shell script w) as (evs & Hw & Ht).
  apply launchTrace_logged in Ht. destruct Ht as (_ & Hl & Hs).
  eexists. split; [exact Hw|]. split; [exact Hl|].
  intros H. apply Hs. exact H.
Qed.

Lemma C7_shell_script_on_stdin_witness :
  let c := mkCommand "/tmp" None None [] in
  let w := sampleWorld runsFine in
  exists evs,
    snd (runState (RunShell exec.Command c "/bin/bash" "echo $HOME") w)
    = after w evs /\
    launched evs = [mkCmd "/bin/bash" ["/bin/bash"] None "/tmp"
                          (Some "echo $HOME")].
Proof.
  intros c w.
  destruct (C7_shell_script_on_stdin exec.Command c "/bin/bash"
              "echo $HOME" w) as (_ & _ & _ & _ & evs & Hw & _ & Hs).
  exists evs. split; [exact Hw|].
  exact (Hs (conj eq_refl (conj eq_refl eq_refl))).
Defined.

(** C9: a run started while a sink of the command is unset drains the
    corresponding stream into the process-wide standard stream, the one
    that [os.Stdout] or [os.Stderr] names when the run is launched; the
    setters keep an unset sink unset, and a sink set before the launch
    is the one the run drains into. *)
Theorem C9_default_sinks (L : string -> list string -> Cmd) (c : Command)
    (executable : string) (params : list string) (shell script : string)
    (w : World) :
  let out := match stdout c with None => osStdout w | Some x => x end in
  let err := match stderr c with None => osStderr w | Some x => x end in
  (starts w (executableCmd L c executable params w) ->
   (exists evs,
      snd (runState (RunExecutableInBackground L c executable params) w)
      = after w evs /\
      drains evs = [(StdoutStream, out); (StderrStream, err)]) /\
   (exists evs,
      snd (runState (RunExecutable L c executable params) w) = after w evs /\
      drains evs = [(StdoutStream, out); (StderrStream, err)]) /\
   (forall sink : io.Writer,
      exists evs,
        snd (runState (RunExecutable L (Stdout c (Some sink))
                         executable params) w) = after w evs /\
        drains evs = [(StdoutStream, sink); (StderrStream, err)])) /\
  (starts w (shellCmd L c shell script w) ->
   exists evs,
     snd (runState (RunShell L c shell script) w) = after w evs /\
     drains evs = [(StdoutStream, out); (StderrStream, err)]) /\
  stdout (Stdout c None) = None /\
  stderr (Stderr c None) = None.
Proof.
  intros out err.
  assert (Hrun : forall c',
            starts w (executableCmd L c' executable params w) ->
            exists evs,
              snd (runState (RunExecutable L c' executable params) w)
              = after w evs /\
              drains evs = [(StdoutStream, sinkOut c' w);
                            (StderrStream, sinkErr c' w)]).
  { intros c' Hs.
    destruct (RunExecutable_trace L c' executable params w)
      as (evs & Hw & Ht).
    apply launchTrace_logged in Ht. destruct Ht as (_ & _ & Hd).
    eexists. split; [exact Hw|]. apply Hd. exact Hs. }
  split; [|split; [|split; reflexivity]].
  - intros Hs. split; [|split].
    + destruct (RunExecutableInBackground_trace L c executable params w)
        as (evs & Hw & Ht).
      apply launchTrace_logged in Ht. destruct Ht as (_ & _ & Hd).
      eexists. split; [exact Hw|]. apply Hd. exact Hs.
    + exact (Hrun c Hs).
    + intros sink. exact (Hrun (Stdout c (Some sink)) Hs).
  - intros Hs.
    destruct (RunShell_trace L c shell script w) as (evs & Hw & Ht).
    apply launchTrace_logged in Ht. destruct Ht as (_ & _ & Hd).
    eexists. split; [exact Hw|]. apply Hd. exact Hs.
Qed.

Lemma C9_default_sinks_witness :
  let c := Stderr (mkCommand "" None None []) (Some (io.Buffer 7)) in
  let w := sampleWorld runsFine in
  exists evs,
    snd (runState (RunExecutableInBackground exec.Command c "echo"
                     ["foo bar"; "baz"]) w) = after w evs /\
    drains evs = [(StdoutStream, io.File 1); (StderrStream, io.Buffer 7)].
Proof.
  intros c w.
  destruct (C9_default_sinks exec.Command c "echo" ["foo bar"; "baz"]
              "/bin/sh" "true" w) as (Hexe & _).
  destruct (Hexe (conj eq_refl (conj eq_refl eq_refl))) as (Hbg & _).
  exact Hbg.
Defined.

(* ================================================================== *)
(** ** The classifier *)
(* ================================================================== *)

Lemma matchesAny_occurs (line : string) (patterns : list string) :
  Classifier.matchesAny line patterns = true <->
  exists pattern, In pattern patterns /\ occursIn pattern line.
Proof.
  unfold Classifier.matchesAny. rewrite existsb_exists.
  split; intros (p & Hin & H); exists p; split; try exact Hin;
    apply Contains_occursIn; exact H.
Qed.

Lemma firstMatch_matchless (mapping : Classifier.Mapping) (line : string) :
  matchless mapping line -> Classifier.firstMatch mapping line = None.
Proof.
  induction mapping as [|[category patterns] rest IH]; intros H.
  - reflexivity.
  - cbn [Classifier.firstMatch].
    destruct (Classifier.matchesAny line patterns) eqn:Hm.
    + apply matchesAny_occurs in Hm. destruct Hm as (p & Hin & Hocc).
      exfalso. exact (H category patterns p (or_introl eq_refl) Hin Hocc).
    + apply IH. intros c ps p Hc. apply (H c ps p). right. exact Hc.
Qed.

Lemma firstMatch_first (before rest : Classifier.Mapping)
      (category : string) (patterns : list string) (line : string) :
  matchless before line ->
  Classifier.matchesAny line patterns = true ->
  Classifier.firstMatch (before ++ (category, patterns) :: rest) line
  = Some category.
Proof.
  induction before as [|[c ps] before IH]; intros Hb Hm.
  - cbn. rewrite Hm. reflexivity.
  - cbn [app Classifier.firstMatch].
    destruct (Classifier.matchesAny line ps) eqn:Hps.
    + apply matchesAny_occurs in Hps. destruct Hps as (p & Hin & Hocc).
      exfalso. exact (Hb c ps p (or_introl eq_refl) Hin Hocc).
    + apply IH; [|exact Hm].
      intros c' ps' p Hc. apply (Hb c' ps' p). right. exact Hc.
Qed.

(** C8: for a line observed on a drained stream the categories are tried
    in the mapping's iteration order, a pattern matching when it occurs
    in the line byte for byte, and the first category with a matching
    pattern becomes the shared category signal; a line in which no
    pattern occurs leaves the signal as it was, so it survives any
    number of later lines without a match, and with an empty mapping the
    signal never changes. *)
Theorem C8_classifier (mapping : Classifier.Mapping) (line : string)
                      (signal : Classifier.ErrorCategory) :
  (forall before category patterns rest pattern,
     mapping = before ++ (category, patterns) :: rest ->
     matchless before line ->
     In pattern patterns -> occursIn pattern line ->
     Classifier.parseConsoleErrors mapping line signal
     = Classifier.ErrorCategoryByString category) /\
  (matchless mapping line ->
   Classifier.parseConsoleErrors mapping line signal = signal) /\
  (forall lines,
     (forall l, In l lines -> matchless mapping l) ->
     Classifier.classify mapping lines signal = signal) /\
  (forall lines, Classifier.classify [] lines signal = signal).
Proof.
  assert (Hno : forall m l s, matchless m l ->
                  Classifier.parseConsoleErrors m l s = s).
  { intros m l s H. unfold Classifier.parseConsoleErrors.
    rewrite (firstMatch_matchless m l H). reflexivity. }
  assert (Hall : forall m lines s,
                   (forall l, In l lines -> matchless m l) ->
                   Classifier.classify m lines s = s).
  { intros m lines. unfold Classifier.classify.
    induction lines as [|l lines IH]; intros s H; [reflexivity|].
    cbn [fold_left]. rewrite (Hno m l s) by (apply H; left; reflexivity).
    apply IH. intros l' Hl'. apply H. right. exact Hl'. }
  split; [|split; [|split]].
  - intros before category patterns rest pattern -> Hb Hin Hocc.
    unfold Classifier.parseConsoleErrors.
    rewrite firstMatch_first; [reflexivity | exact Hb |].
    apply matchesAny_occurs. exists pattern. split; assumption.
  - apply Hno.
  - intros lines. apply Hall.
  - intros lines. apply Hall. intros l _ c ps p [].
Qed.

Lemma C8_classifier_witness :
  Classifier.parseConsoleErrors [("config", ["bad config"])]
    "this is a bad config error" Classifier.ErrorUndefined
  = Classifier.ErrorConfiguration.
Proof.
  apply (proj1 (C8_classifier [("config", ["bad config"])]
                  "this is a bad config error" Classifier.ErrorUndefined)
               [] "config" ["bad config"] [] "bad config" eq_refl).
  - intros c ps p [].
  - left. reflexivity.
  - exists "this is a "%string, " error"%string. reflexivity.
Defined.

(** The example of the spec: the signal set by a matching line is still
    there after an unrelated line. *)
Example classify_sticky :
  Classifier.classify [("config", ["bad config"])]
    ["this is a bad config error"; "all is well"] Classifier.ErrorUndefined
  = Classifier.ErrorConfiguration.
Proof. reflexivity. Qed.

(** [TestParseConsoleErrors] of the package, line by line; the outcome
    is the same for both iteration orders of the mapping. *)
Example parseConsoleErrors_test :
  let m1 := [("config", ["configuration error 1"; "configuration error 2"]);
             ("build", ["build failed"])] in
  let m2 := rev m1 in
  forall m, m = m1 \/ m = m2 ->
    let s1 := Classifier.parseConsoleErrors m "this is an error"
                Classifier.ErrorUndefined in
    let s2 := Classifier.parseConsoleErrors m "this is configuration error 2"
                s1 in
    let s3 := Classifier.parseConsoleErrors m "the build failed" s2 in
    s1 = Classifier.ErrorUndefined /\
    s2 = Classifier.ErrorConfiguration /\
    s3 = Classifier.ErrorBuild.
Proof. intros m1 m2 m [-> | ->]; repeat split. Qed.

(** Matching is case-sensitive. *)
Example Contains_case_sensitive :
  strings.Contains "the Build Failed" "build failed" = false /\
  strings.Contains "the build failed" "build failed" = true.
Proof. split; reflexivity. Qed.

(* ================================================================== *)
(** ** More on the environment merger *)
(* ================================================================== *)

Lemma setEnv_same (cmd : Cmd) : exec.setEnv cmd (Env cmd) = cmd.
Proof. destruct cmd; reflexivity. Qed.

(** [appendEnvironment] changes the environment slice and nothing else. *)
Lemma appendEnvironment_merged (cmd : Cmd) (E : list string) (w : World) :
  fst (runState (appendEnvironment cmd E) w)
  = exec.setEnv cmd (mergedEnv w cmd E).
Proof.
  rewrite appendEnvironment_run. cbn [fst]. unfold mergedEnv, baseEnv.
  destruct E as [|x E]; [symmetry; apply setEnv_same|].
  destruct (exec.envEntries cmd); reflexivity.
Qed.

(** X1: appending override lists one after the other is appending their
    concatenation: the process environment is copied in at most once,
    and nothing is dropped or reordered. *)
Theorem appendEnvironment_compose (cmd : Cmd) (E1 E2 : list string)
                                  (w : World) :
  fst (runState (appendEnvironment
                   (fst (runState (appendEnvironment cmd E1) w)) E2) w)
  = fst (runState (appendEnvironment cmd (E1 ++ E2)) w).
Proof.
  rewrite !appendEnvironment_run. cbn [fst].
  destruct E1 as [|x1 E1]; [reflexivity|].
  destruct E2 as [|x2 E2].
  - rewrite app_nil_r. reflexivity.
  - cbn [app]. unfold exec.envEntries.
    destruct (Env cmd) as [[|y l]|]; cbn; rewrite <- ?app_assoc;
      try reflexivity.
    + destruct (osEnviron w); reflexivity.
    + destruct (osEnviron w); reflexivity.
Qed.

(** X2: whatever command object the launcher hands out, a key that the
    override list defines has, in the environment of the child, the
    value of its last entry in the override list; any other key keeps
    the value it has in the entries the overrides were appended to. *)
Theorem override_precedence (cmd : Cmd) (E : list string) (w : World)
                            (key : string) :
  E <> [] ->
  exec.lookupEnv key
    (exec.effectiveEnv w (fst (runState (appendEnvironment cmd E) w)))
  = match exec.lookupEnv key E with
    | Some v => Some v
    | None => exec.lookupEnv key (baseEnv w cmd)
    end.
Proof.
  intros HE. rewrite appendEnvironment_merged.
  destruct E as [|x E]; [congruence|].
  cbn [mergedEnv exec.setEnv exec.effectiveEnv Env].
  apply lookupEnv_app.
Qed.

Lemma override_precedence_witness :
  exec.lookupEnv "GO_WANT_HELPER_PROCESS"
    (exec.effectiveEnv (sampleWorld runsFine)
       (fst (runState (appendEnvironment (helperCommand "command.test" "env" [])
                         ["DEBUG=true"; "GO_WANT_HELPER_PROCESS=0"])
                      (sampleWorld runsFine))))
  = Some "0".
Proof.
  exact (override_precedence (helperCommand "command.test" "env" [])
           ["DEBUG=true"; "GO_WANT_HELPER_PROCESS=0"] (sampleWorld runsFine)
           "GO_WANT_HELPER_PROCESS" ltac:(discriminate)).
Defined.

(* ================================================================== *)
(** ** The command object of a run *)
(* ================================================================== *)

Lemma applyDir_dir (c : Command) (cmd : Cmd) :
  applyDir c cmd
  = mkCmd (Path cmd) (Args cmd) (Env cmd)
          (if String.eqb (dir c) "" then Dir cmd else dir c) (Stdin cmd).
Proof.
  unfold applyDir. destruct (dir c) as [|a d]; cbn; destruct cmd; reflexivity.
Qed.

Lemma executableCmd_eq (L : string -> list string -> Cmd) (c : Command)
      (executable : string) (params : list string) (w : World) :
  executableCmd L c executable params w
  = (let l := L executable params in
     mkCmd (Path l) (Args l) (mergedEnv w l (env c))
           (if String.eqb (dir c) "" then Dir l else dir c) (Stdin l)).
Proof.
  unfold executableCmd. rewrite appendEnvironment_merged, applyDir_dir.
  reflexivity.
Qed.

Lemma shellCmd_eq (L : string -> list string -> Cmd) (c : Command)
      (shell script : string) (w : World) :
  shellCmd L c shell script w
  = (let l := L shell [] in
     mkCmd (Path l) (Args l) (mergedEnv w l (env c))
           (if String.eqb (dir c) "" then Dir l else dir c) (Some script)).
Proof.
  unfold shellCmd. rewrite appendEnvironment_merged, applyDir_dir.
  reflexivity.
Qed.

(** X3: of the command object the launcher hands out, the dispatcher
    changes the environment, the working directory when the command has
    a non-empty one, and for a shell the standard input; path and
    arguments are the launcher's, and an executable gets no input of the
    dispatcher's. *)
Theorem command_object (L : string -> list string -> Cmd) (c : Command)
    (executable : string) (params : list string) (shell script : string)
    (w : World) :
  executableCmd L c executable params w
  = (let l := L executable params in
     mkCmd (Path l) (Args l) (mergedEnv w l (env c))
           (if String.eqb (dir c) "" then Dir l else dir c) (Stdin l)) /\
  shellCmd L c shell script w
  = (let l := L shell [] in
     mkCmd (Path l) (Args l) (mergedEnv w l (env c))
           (if String.eqb (dir c) "" then Dir l else dir c) (Some script)).
Proof.
  split.
  - unfold executableCmd. rewrite appendEnvironment_merged, applyDir_dir.
    reflexivity.
  - unfold shellCmd. rewrite appendEnvironment_merged, applyDir_dir.
    reflexivity.
Qed.

(* ================================================================== *)
(** ** The outcomes of a launch and of a run *)
(* ================================================================== *)

(** [startCmd], outcome by outcome of the platform calls. *)
Lemma startCmd_cases (cmd : Cmd) (o e : io.Writer) (w : World) :
  runState (startCmd cmd o e) w =
  match stdoutPipeErr (child w cmd), stderrPipeErr (child w cmd),
        startErr (child w cmd) with
  | Some e1, _, _ =>
      (inl (errors.Wrap (errors.Wrap e1 "getting Stdout pipe failed")
                        "getting command pipes failed"),
       after w [EvStdoutPipe cmd false])
  | None, Some e2, _ =>
      (inl (errors.Wrap (errors.Wrap e2 "getting Stderr pipe failed")
                        "getting command pipes failed"),
       after w [EvStdoutPipe cmd true; EvStderrPipe cmd false])
  | None, None, Some e3 =>
      (inl (errors.Wrap e3 "starting command failed"),
       after w [EvStdoutPipe cmd true; EvStderrPipe cmd true;
                EvStart cmd false])
  | None, None, None =>
      (inr (mkExecution cmd [mkDrain StdoutStream o StdoutStream;
                             mkDrain StderrStream e StderrStream] None None),
       after w [EvStdoutPipe cmd true; EvStderrPipe cmd true;
                EvStart cmd true;
                EvGo cmd StdoutStream o; EvGo cmd StderrStream e])
  end.
Proof.
  destruct (stdoutPipeErr (child w cmd)) as [e1|] eqn:H1.
  { apply startCmd_stdout_pipe_fails. exact H1. }
  destruct (stderrPipeErr (child w cmd)) as [e2|] eqn:H2.
  { apply startCmd_stderr_pipe_fails; assumption. }
  destruct (startErr (child w cmd)) as [e3|] eqn:H3.
  { apply startCmd_start_fails; assumption. }
  apply startCmd_starts. repeat split; assumption.
Qed.

(** [runCmd], outcome by outcome of the platform calls. *)
Lemma runCmd_cases (cmd : Cmd) (o e : io.Writer) (w : World) :
  runState (runCmd cmd o e) w =
  match stdoutPipeErr (child w cmd), stderrPipeErr (child w cmd),
        startErr (child w cmd) with
  | Some e1, _, _ =>
      (Some (errors.Wrap (errors.Wrap e1 "getting Stdout pipe failed")
                         "getting command pipes failed"),
       after w [EvStdoutPipe cmd false])
  | None, Some e2, _ =>
      (Some (errors.Wrap (errors.Wrap e2 "getting Stderr pipe failed")
                         "getting command pipes failed"),
       after w [EvStdoutPipe cmd true; EvStderrPipe cmd false])
  | None, None, Some e3 =>
      (Some (errors.Wrap e3 "starting command failed"),
       after w [EvStdoutPipe cmd true; EvStderrPipe cmd true;
                EvStart cmd false])
  | None, None, None =>
      (joinResult (mkExecution cmd [] (copyStdoutErr (child w cmd))
                                      (copyStderrErr (child w cmd)))
                  (waitErr (child w cmd)),
       after w [EvStdoutPipe cmd true; EvStderrPipe cmd true;
                EvStart cmd true;
                EvGo cmd StdoutStream o; EvGo cmd StderrStream e;
                EvWait cmd])
  end.
Proof.
  destruct (stdoutPipeErr (child w cmd)) as [e1|] eqn:H1.
  { apply runCmd_not_started, startCmd_stdout_pipe_fails. exact H1. }
  destruct (stderrPipeErr (child w cmd)) as [e2|] eqn:H2.
  { apply runCmd_not_started, startCmd_stderr_pipe_fails; assumption. }
  destruct (startErr (child w cmd)) as [e3|] eqn:H3.
  { apply runCmd_not_started, startCmd_start_fails; assumption. }
  apply runCmd_started. repeat split; assumption.
Qed.

(** Case analysis on what the platform does with [cmd] in [w]. *)
Ltac platform_cases w cmd :=
  let H1 := fresh "Hout" in
  let H2 := fresh "Herr" in
  let H3 := fresh "Hstart" in
  destruct (stdoutPipeErr (child w cmd)) eqn:H1;
  [|destruct (stderrPipeErr (child w cmd)) eqn:H2;
    [|destruct (startErr (child w cmd)) eqn:H3]].

Lemma runCmd_succeeds_iff (cmd : Cmd) (o e : io.Writer) (w : World) :
  fst (runState (runCmd cmd o e) w) = None <->
  starts w cmd /\
  copyStdoutErr (child w cmd) = None /\
  copyStderrErr (child w cmd) = None /\
  waitErr (child w cmd) = None.
Proof.
  rewrite runCmd_cases. unfold starts.
  platform_cases w cmd; cbn [fst];
    try (split; [discriminate | intros ((? & ? & ?) & _); congruence]).
  unfold joinResult. cbn [errCopyStdout errCopyStderr].
  destruct (copyStdoutErr (child w cmd)), (copyStderrErr (child w cmd)),
           (waitErr (child w cmd)); cbn;
    (split; [try discriminate; intros _; repeat split
            | intros (_ & ? & ? & ?); congruence]).
Qed.

(** X4: a blocking run returns nil exactly when both pipes were
    obtained, the process was started, both drains ended without a copy
    error and the process exited without an error. *)
Theorem run_succeeds_iff (L : string -> list string -> Cmd) (c : Command)
    (executable : string) (params : list string) (shell script : string)
    (w : World) :
  (fst (runState (RunExecutable L c executable params) w) = None <->
   let cmd := executableCmd L c executable params w in
   starts w cmd /\
   copyStdoutErr (child w cmd) = None /\
   copyStderrErr (child w cmd) = None /\
   waitErr (child w cmd) = None) /\
  (fst (runState (RunShell L c shell script) w) = None <->
   let cmd := shellCmd L c shell script w in
   starts w cmd /\
   copyStdoutErr (child w cmd) = None /\
   copyStderrErr (child w cmd) = None /\
   waitErr (child w cmd) = None).
Proof.
  split; cbv zeta.
  - rewrite RunExecutable_run.
    rewrite <- (runCmd_succeeds_iff (executableCmd L c executable params w)
                  (sinkOut c w) (sinkErr c w)
                  (after w [EvLog ("running command: " ++ executable ++ " "
                                   ++ strings.Join params " ")])).
    destruct (runState (runCmd _ _ _) _) as [[err|] w']; cbn;
      split; congruence.
  - rewrite RunShell_run.
    rewrite <- (runCmd_succeeds_iff (shellCmd L c shell script w)
                  (sinkOut c w) (sinkErr c w)
                  (after w [EvLog ("running shell script: " ++ shell ++ " "
                                   ++ script)])).
    destruct (runState (runCmd _ _ _) _) as [[err|] w']; cbn;
      split; congruence.
Qed.

Lemma run_succeeds_iff_witness :
  fst (runState (RunExecutable exec.Command (mkCommand "" None None [])
                   "echo" ["foo bar"; "baz"]) (sampleWorld runsFine)) = None.
Proof.
  apply (proj1 (run_succeeds_iff exec.Command (mkCommand "" None None [])
                  "echo" ["foo bar"; "baz"] "/bin/sh" "true"
                  (sampleWorld runsFine))).
  cbv zeta. exact (conj (conj eq_refl (conj eq_refl eq_refl))
                        (conj eq_refl (conj eq_refl eq_refl))).
Defined.

(** X5: when a pipe cannot be obtained the run ends there: after a
    failed stdout pipe the stderr pipe is not asked for, and in neither
    case is the process started; the failure names the pipe and wraps
    the platform's error, and [RunExecutableInBackground] hands the same
    failure on as one of starting the command. *)
Theorem pipe_failure (L : string -> list string -> Cmd) (c : Command)
    (executable : string) (params : list string) (w : World)
    (cause : error) :
  let cmd := executableCmd L c executable params w in
  let line := ("running command: " ++ executable ++ " "
               ++ strings.Join params " ")%string in
  let failed (pipe : string) :=
    errors.Wrap (errors.Wrap cause ("getting " ++ pipe ++ " pipe failed"))
                "getting command pipes failed" in
  (stdoutPipeErr (child w cmd) = Some cause ->
   runState (RunExecutable L c executable params) w
   = (Some (errors.Wrapf (failed "Stdout")
              ("running command '" ++ executable ++ "' failed")),
      after w [EvLog line; EvStdoutPipe cmd false]) /\
   runState (RunExecutableInBackground L c executable params) w
   = (inl (errors.Wrapf (failed "Stdout")
             ("starting command '" ++ executable ++ "' failed")),
      after w [EvLog line; EvStdoutPipe cmd false])) /\
  (stdoutPipeErr (child w cmd) = None ->
   stderrPipeErr (child w cmd) = Some cause ->
   runState (RunExecutable L c executable params) w
   = (Some (errors.Wrapf (failed "Stderr")
              ("running command '" ++ executable ++ "' failed")),
      after w [EvLog line; EvStdoutPipe cmd true; EvStderrPipe cmd false]) /\
   runState (RunExecutableInBackground L c executable params) w
   = (inl (errors.Wrapf (failed "Stderr")
             ("starting command '" ++ executable ++ "' failed")),
      after w [EvLog line; EvStdoutPipe cmd true; EvStderrPipe cmd false])).
Proof.
  intros cmd line failed.
  rewrite RunExecutable_run, RunExecutableInBackground_run.
  fold cmd line. rewrite runCmd_cases, startCmd_cases, !child_after.
  split.
  - intros ->. rewrite !after_after. split; reflexivity.
  - intros -> ->. rewrite !after_after. split; reflexivity.
Qed.

Lemma pipe_failure_witness :
  let c := mkCommand "" None None [] in
  let w := sampleWorld noStderrPipe in
  runState (RunExecutable exec.Command c "make" ["all"]) w
  = (Some (errors.Wrapf
             (errors.Wrap (errors.Wrap (osError "too many open files")
                                       "getting Stderr pipe failed")
                          "getting command pipes failed")
             "running command 'make' failed"),
     after w [EvLog "running command: make all";
              EvStdoutPipe (exec.Command "make" ["all"]) true;
              EvStderrPipe (exec.Command "make" ["all"]) false]).
Proof.
  intros c w.
  destruct (pipe_failure exec.Command c "make" ["all"] w
              (osError "too many open files")) as (_ & Hstderr).
  destruct (Hstderr eq_refl eq_refl) as (Hrun & _).
  exact Hrun.
Defined.


(** X6: every run writes exactly one log line, before it asks the
    platform for anything and whatever the outcome; the blocking and the
    background run of an executable write the same line. *)
Theorem one_log_line (L : string -> list string -> Cmd) (c : Command)
    (executable : string) (params : list string) (shell script : string)
    (w : World) :
  let line := ("running command: " ++ executable ++ " "
               ++ strings.Join params " ")%string in
  (exists rest,
     snd (runState (RunExecutable L c executable params) w)
     = after w (EvLog line :: rest) /\ logged rest = []) /\
  (exists rest,
     snd (runState (RunExecutableInBackground L c executable params) w)
     = after w (EvLog line :: rest) /\ logged rest = []) /\
  (exists rest,
     snd (runState (RunShell L c shell script) w)
     = after w (EvLog ("running shell script: " ++ shell ++ " " ++ script)
                :: rest) /\ logged rest = []).
Proof.
  intros line.
  rewrite RunExecutable_run, RunExecutableInBackground_run, RunShell_run.
  fold line. rewrite !runCmd_cases, startCmd_cases, !child_after.
  split; [|split].
  - platform_cases w (executableCmd L c executable params w);
      cbn [snd]; rewrite after_after; eexists; split; reflexivity.
  - platform_cases w (executableCmd L c executable params w);
      cbn [snd]; rewrite after_after; eexists; split; reflexivity.
  - platform_cases w (shellCmd L c shell script w);
      cbn [snd]; rewrite after_after; eexists; split; reflexivity.
Qed.

(** X7: [RunExecutableInBackground] never waits for the process; the
    blocking [RunExecutable] waits for it exactly once, as the last
    thing it does, when the process was started, and not at all when it
    was not. *)
Theorem join_behaviour (L : string -> list string -> Cmd) (c : Command)
    (executable : string) (params : list string) (w : World) :
  let cmd := executableCmd L c executable params w in
  (exists evs,
     snd (runState (RunExecutableInBackground L c executable params) w)
     = after w evs /\ joined evs = []) /\
  (exists evs,
     snd (runState (RunExecutable L c executable params) w) = after w evs /\
     (starts w cmd ->
        joined evs = [cmd] /\
        exists before, evs = before ++ [EvWait cmd] /\
                       In (EvStart cmd true) before) /\
     (~ starts w cmd -> joined evs = [])).
Proof.
  intros cmd.
  rewrite RunExecutable_run, RunExecutableInBackground_run. fold cmd.
  rewrite runCmd_cases, startCmd_cases, !child_after. unfold starts.
  split.
  - platform_cases w cmd; cbn [snd]; rewrite after_after;
      eexists; split; reflexivity.
  - platform_cases w cmd; cbn [snd]; rewrite after_after;
      eexists; (split; [reflexivity|]);
      (split; [try (intros (? & ? & ?); congruence)
              | try (intros _; reflexivity)]).
    + intros _. split; [reflexivity|].
      exists [EvLog ("running command: " ++ executable ++ " "
                     ++ strings.Join params " ");
              EvStdoutPipe cmd true; EvStderrPipe cmd true;
              EvStart cmd true;
              EvGo cmd StdoutStream (sinkOut c w);
              EvGo cmd StderrStream (sinkErr c w)].
      split; [reflexivity|]. cbn. auto.
    + intros H. exfalso. apply H. repeat split.
Qed.

Lemma join_behaviour_witness :
  let c := mkCommand "" None None [] in
  let w := sampleWorld (exitsWith 1) in
  exists evs,
    snd (runState (RunExecutable exec.Command c "false" []) w) = after w evs /\
    joined evs = [exec.Command "false" []].
Proof.
  intros c w.
  destruct (join_behaviour exec.Command c "false" [] w)
    as (_ & evs & Hw & Hs & _).
  exists evs. split; [exact Hw|].
  exact (proj1 (Hs (conj eq_refl (conj eq_refl eq_refl)))).
Defined.





(* ================================================================== *)
(** ** What a failure carries *)
(* ================================================================== *)







(* ================================================================== *)
(** ** The helper process of the tests *)
(* ================================================================== *)

Lemma helperCommand_args (self command : string) (s : list string) :
  Args (helperCommand self command s)
  = self :: "-test.run=TestHelperProcess" :: "--" :: command :: s.
Proof. reflexivity. Qed.

Lemma afterSeparator_helperCommand (self command : string)
                                   (s : list string) :
  self <> "--" ->
  HelperProcess.afterSeparator (Args (helperCommand self command s))
  = command :: s.
Proof.
  intros Hself. rewrite helperCommand_args.
  cbn [HelperProcess.afterSeparator].
  apply String.eqb_neq in Hself. rewrite Hself. reflexivity.
Qed.

(** X11: the helper process finds, behind the separator, exactly the
    command and the arguments that [helperCommand] was given, also when
    the launch goes through the dispatcher, and also when they contain
    the separator themselves; the name of the test binary must not be
    the separator. *)
Theorem helper_round_trip (self : string) (c : Command) (command : string)
                          (s : list string) (script : string) (w : World) :
  self <> "--" ->
  HelperProcess.afterSeparator (Args (helperCommand self command s))
  = command :: s /\
  HelperProcess.afterSeparator
    (Args (executableCmd (helperCommand self) c command s w))
  = command :: s /\
  HelperProcess.afterSeparator
    (Args (shellCmd (helperCommand self) c command script w))
  = [command].
Proof.
  intros Hself. rewrite executableCmd_eq, shellCmd_eq. cbn [Args].
  repeat split; apply afterSeparator_helperCommand; exact Hself.
Qed.

Lemma helper_round_trip_witness :
  HelperProcess.afterSeparator
    (Args (helperCommand "/tmp/command.test" "echo" ["a"; "--"; "b"]))
  = ["echo"; "a"; "--"; "b"].
Proof.
  exact (proj1 (helper_round_trip "/tmp/command.test"
                  (mkCommand "" None None []) "echo" ["a"; "--"; "b"] ""
                  (sampleWorld runsFine) ltac:(discriminate))).
Defined.



(** X13: the helper process exits with status 2 exactly when there is no
    command behind the separator or the command is none of [/bin/bash],
    [echo] and [env]; it then writes nothing to its standard output;
    in every other case it exits with status 0. *)
Theorem helper_exit_status (quote : string -> string)
    (osArgs environ : list string) (stdin : string)
    (result : HelperProcess.Exit) :
  HelperProcess.TestHelperProcess quote "1" osArgs environ stdin
  = Some result ->
  (HelperProcess.code result = 2%Z <->
   match HelperProcess.afterSeparator osArgs with
   | [] => True
   | command :: _ =>
       command <> "/bin/bash" /\ command <> "echo" /\ command <> "env"
   end) /\
  (HelperProcess.code result = 2%Z -> HelperProcess.out result = "") /\
  (HelperProcess.code result = 2%Z \/ HelperProcess.code result = 0%Z).
Proof.
  unfold HelperProcess.TestHelperProcess.
  change (String.eqb "1" "1") with true. cbn [negb].
  destruct (HelperProcess.afterSeparator osArgs) as [|command args].
  { intros [= <-]. cbn. repeat split; auto. }
  destruct (String.eqb_spec command "/bin/bash") as [->|Hb].
  { intros [= <-]. cbn. repeat split; try discriminate; auto.
    intros (H & _). congruence. }
  destruct (String.eqb_spec command "echo") as [->|He].
  { intros [= <-]. cbn. repeat split; try discriminate; auto.
    intros (_ & H & _). congruence. }
  destruct (String.eqb_spec command "env") as [->|Hv].
  { intros [= <-]. cbn. repeat split; try discriminate; auto.
    intros (_ & _ & H). congruence. }
  intros [= <-]. cbn. repeat split; auto.
Qed.

Lemma helper_exit_status_witness :
  HelperProcess.code
    (HelperProcess.mkExit "" ("Unknown command ls" ++ nl) 2) = 2%Z.
Proof.
  apply (proj1 (helper_exit_status (fun s => s)
                  (Args (helperCommand "command.test" "ls" ["-l"])) [] ""
                  (HelperProcess.mkExit "" ("Unknown command ls" ++ nl) 2)
                  eq_refl)).
  cbn. repeat split; discriminate.
Defined.

(* ================================================================== *)
(** ** Running a command again *)
(* ================================================================== *)


